(** * ESMC_Quadrature.h: integration rules, their per-order caches and the
      side-rule factory.

    The development embeds the classes of
    [src/Infrastructure/Mesh/include/ESMC_Quadrature.h] as state-passing
    functions over an explicit object store.  Pointers are addresses, the
    [static] [classInstances] maps are fields of the store, [Throw()] and
    unchecked accesses are outcomes of a small error monad. *)

From Stdlib Require Import Reals Lra.
From stdpp Require Import base gmap list strings.

Local Open Scope N_scope.

(** ** Outcomes of a call *)

(** A C++ call returns a value, leaves through [Throw() << msg], or has no
    defined behaviour (unchecked access outside an array, dangling
    pointer). *)
Inductive outcome (A : Type) : Type :=
  | Ret (a : A)
  | Throw (msg : string)
  | Undefined.
Arguments Ret {A} a.
Arguments Throw {A} msg.
Arguments Undefined {A}.

Definition returns {A} (o : outcome A) : Prop := ∃ a, o = Ret a.
Definition throws {A} (o : outcome A) : Prop := ∃ msg, o = Throw msg.

(** ** Point Generator *)

(** A polynomial is the list of its coefficients, constant term first. *)
Fixpoint eval_poly (p : list R) (x : R) : R :=
  match p with
  | [] => 0%R
  | a :: p' => (a + x * eval_poly p' x)%R
  end.

(** The integral of [x^k] over [[-1, 1]]. *)
Definition moment (k : nat) : R :=
  if Nat.even k then (2 / INR (S k))%R else 0%R.

(** The integral over [[-1, 1]] of [x^k * p]. *)
Fixpoint integral_from (k : nat) (p : list R) : R :=
  match p with
  | [] => 0%R
  | a :: p' => (a * moment k + integral_from (S k) p')%R
  end.

Definition integral (p : list R) : R := integral_from 0 p.

(** The weighted sum of the values of [p] at the abscissae. *)
Fixpoint quadrature (xs ws : list R) (p : list R) : R :=
  match xs, ws with
  | x :: xs', w :: ws' => (w * eval_poly p x + quadrature xs' ws' p)%R
  | _, _ => 0%R
  end.

(** Modelled from the spec: what the generator is to produce, [n]
    abscissae and weights that integrate every polynomial of degree at most
    [2n - 1] exactly on [[-1, 1]]. *)
Definition gauss_legendre_rule (n : nat) (xs ws : list R) : Prop :=
  length xs = n ∧ length ws = n ∧
  ∀ p, (length p ≤ 2 * n)%nat → quadrature xs ws p = integral p.

(** What a call of the generator does: it stops on a violated
    precondition, or writes the abscissae and, when a weights array is
    supplied, the weights. *)
Inductive generated : Type :=
  | Precondition_failure
  | Written (locs : list R) (wghts : option (list R)).

(** Modelled from the spec: [gauss_legendre(n, locs, wghts)] is declared
    at header line 173 and defined elsewhere.  For [n >= 1] it produces
    the [n] Gauss-Legendre abscissae and weights, the weights only when
    [wghts] is not null; an [n] that is not positive is a precondition
    failure.  The arithmetic is that of the real numbers. *)
Inductive gauss_legendre (n : N) (wghts : bool) : generated → Prop :=
  | gauss_legendre_invalid :
      n = 0 → gauss_legendre n wghts Precondition_failure
  | gauss_legendre_points xs ws :
      0 < n → gauss_legendre_rule (N.to_nat n) xs ws →
      gauss_legendre n wghts (Written xs (if wghts then Some ws else None)).

(** ** Classes of rules *)

(** The five classes with a [static instance(q)] and a [classInstances]
    map. *)
Inductive cached_class : Set := barq | quadq | triq | hexq | tetraq.

(** The dynamic type of an [intgRule] object. *)
Inductive rule_class : Set :=
  | arbq
  | cached (c : cached_class).

Global Instance cached_class_eq_dec : EqDecision cached_class.
Proof. solve_decision. Defined.
Global Instance rule_class_eq_dec : EqDecision rule_class.
Proof. solve_decision. Defined.

(** Addresses of heap objects ([intgRule*], [sideIntgFactory*]). *)
Abbreviation addr := positive (only parsing).

(** ** What the header leaves to other files *)

(** Modelled from the spec: [MeshObjTopo] is only forward declared (header
    line 26).  The topology descriptor exposes the side count, the shape
    name of each side and the parametric dimension, and is never written. *)
Record MeshObjTopo : Type := {
  num_sides : N;
  side_topo_name : nat → string;
  topo_parametric_dim : N
}.

(** [UInt] and [double] come from [ESMC_MeshTypes.h]; the point sets are
    generated by constructors defined in the implementation file; topology
    names are resolved by [Topo2Intg] and [GetTopo].  None of these is in
    the header, so they are the parameters of the development. *)
Class Collaborators : Type := {
  (** width of [UInt] in bits *)
  UInt_bits : N;
  (** the type of array cells *)
  double : Type;
  (** point count of the rule of a class for an order *)
  point_count : cached_class → N → N;
  (** generated coordinates and weights of the rule of a class for an order *)
  generated_locs : cached_class → N → list double;
  generated_wgts : cached_class → N → list double;
  (** the class that integrates a topology name, if supported *)
  topo_class : string → option cached_class;
  (** the topology descriptor of a name *)
  GetTopo : string → option MeshObjTopo
}.

(** A small instance, used to run the definitions on concrete inputs:
    32-bit [UInt], integer cells, tensor point counts, and the topologies
    ["BAR"], ["QUAD"] (four ["BAR"] sides) and ["HEX"] (six ["QUAD"]
    sides). *)
Definition sample : Collaborators := {|
  UInt_bits := 32;
  double := Z;
  point_count := λ c ord,
    match c with
    | barq => ord
    | quadq | triq => ord * ord
    | hexq | tetraq => ord * ord * ord
    end;
  generated_locs := λ _ _, [];
  generated_wgts := λ _ _, [];
  topo_class := λ name,
    if decide (name = "BAR") then Some barq
    else if decide (name = "QUAD") then Some quadq
    else if decide (name = "HEX") then Some hexq
    else None;
  GetTopo := λ name,
    if decide (name = "QUAD")
    then Some {| num_sides := 4; side_topo_name := λ _, "BAR"; topo_parametric_dim := 2 |}
    else if decide (name = "HEX")
    then Some {| num_sides := 6; side_topo_name := λ _, "QUAD"; topo_parametric_dim := 3 |}
    else None
|}.

Section Quadrature.
Context {ext : Collaborators}.

(** ** UInt arithmetic *)

(** [a * b] on [UInt]: the product modulo [2 ^ UInt_bits]. *)
Definition UInt_mul (a b : N) : N := (a * b) mod 2 ^ UInt_bits.

(** ** intgRule *)

(** A cell of a [double] array: [None] is a cell that was allocated and
    never written. *)
Definition cell : Type := option double.

(** The members of [intgRule], with the class of the most derived object. *)
Record intgRule : Type := IntgRule {
  dyn : rule_class;
  q : N;
  n : N;
  pdim : N;
  locs : list cell;
  wgts : list cell
}.

(** The accessors of the header, lines 34 to 43. *)
Definition npoints (r : intgRule) : N := n r.
Definition order (r : intgRule) : N := q r.
Definition parametric_dim (r : intgRule) : N := pdim r.
Definition locations (r : intgRule) : list cell := locs r.
Definition weights (r : intgRule) : list cell := wgts r.

(** Modelled from the spec: the body of the constructor
    [intgRule(_q, _n, _pdim)] is not in the header.  The spec fixes order,
    point count and dimension at construction and sizes the coordinate
    array to point count times dimension and the weight array to point
    count; the product is the [UInt] one, and fresh cells are unwritten. *)
Definition intgRule_ctor (c : rule_class) (_q _n _pdim : N) : intgRule :=
  {| dyn := c; q := _q; n := _n; pdim := _pdim;
     locs := replicate (N.to_nat (UInt_mul _n _pdim)) None;
     wgts := replicate (N.to_nat _n) None |}.

(** [std::copy(src, src + count, dst)]: the first [count] cells of [dst]
    are overwritten with the first [count] elements of [src]. *)
Definition std_copy (src : list double) (count : nat) (dst : list cell) : list cell :=
  (Some <$> take count src) ++ drop count dst.

(** Writing generated values into an allocated array: as many as there
    are, and no more than the array holds. *)
Definition fill (src : list double) (dst : list cell) : list cell :=
  std_copy src (length src `min` length dst) dst.

(** [arbq::arbq(_pdim, nq, pcoord, _wgts)], header lines 63 to 67.  A null
    [_wgts] is [None].  Reading past the end of a caller array is
    undefined. *)
Definition arbq_ctor (_pdim nq : N) (pcoord : list double)
    (_wgts : option (list double)) : outcome intgRule :=
  let r := intgRule_ctor arbq nq nq _pdim in
  let count := N.to_nat (UInt_mul nq (pdim r)) in
  if decide (length pcoord < count)%nat then Undefined else
  let r1 := {| dyn := dyn r; q := q r; n := n r; pdim := pdim r;
               locs := std_copy pcoord count (locs r); wgts := wgts r |} in
  match _wgts with
  | None => Ret r1
  | Some ws =>
      if decide (length ws < N.to_nat nq)%nat then Undefined else
      Ret {| dyn := dyn r1; q := q r1; n := n r1; pdim := pdim r1;
             locs := locs r1; wgts := std_copy ws (N.to_nat nq) (wgts r1) |}
  end.

(** ** The side-rule factory object *)

(** The members of [sideIntgFactory], header lines 202 to 204. *)
Record sideIntgFactory : Type := SideIntgFactory {
  side_rules : list addr;
  topo : MeshObjTopo;
  base : addr
}.

(** [GetSideRule(side_num)], header lines 187 to 189:
    [return side_rules[side_num];].  [std::vector::operator[]] checks
    nothing, so an index outside the vector has no defined behaviour. *)
Definition GetSideRule (f : sideIntgFactory) (side_num : N) : outcome addr :=
  match side_rules f !! N.to_nat side_num with
  | Some r => Ret r
  | None => Undefined
  end.

(** ** The object store *)

(** Live [intgRule] and [sideIntgFactory] objects, the five [static]
    [classInstances] maps (header lines 97, 115, 132, 150, 167) and the
    [InstanceMap] of the factory (line 196), keyed by the pair of a
    topology name and the address of the base rule. *)
Record world : Type := World {
  heap : gmap addr intgRule;
  barq_classInstances : gmap N addr;
  quadq_classInstances : gmap N addr;
  triq_classInstances : gmap N addr;
  hexq_classInstances : gmap N addr;
  tetraq_classInstances : gmap N addr;
  factories : gmap addr sideIntgFactory;
  InstanceMap : gmap (string * addr) addr
}.

(** The store at program start: nothing allocated, every map empty. *)
Definition start : world := World ∅ ∅ ∅ ∅ ∅ ∅ ∅ ∅.

Definition classInstances (c : cached_class) (w : world) : gmap N addr :=
  match c with
  | barq => barq_classInstances w
  | quadq => quadq_classInstances w
  | triq => triq_classInstances w
  | hexq => hexq_classInstances w
  | tetraq => tetraq_classInstances w
  end.

Definition set_classInstances (c : cached_class) (m : gmap N addr) (w : world) : world :=
  match c with
  | barq => World (heap w) m (quadq_classInstances w) (triq_classInstances w)
              (hexq_classInstances w) (tetraq_classInstances w) (factories w) (InstanceMap w)
  | quadq => World (heap w) (barq_classInstances w) m (triq_classInstances w)
              (hexq_classInstances w) (tetraq_classInstances w) (factories w) (InstanceMap w)
  | triq => World (heap w) (barq_classInstances w) (quadq_classInstances w) m
              (hexq_classInstances w) (tetraq_classInstances w) (factories w) (InstanceMap w)
  | hexq => World (heap w) (barq_classInstances w) (quadq_classInstances w)
              (triq_classInstances w) m (tetraq_classInstances w) (factories w) (InstanceMap w)
  | tetraq => World (heap w) (barq_classInstances w) (quadq_classInstances w)
              (triq_classInstances w) (hexq_classInstances w) m (factories w) (InstanceMap w)
  end.

Definition set_heap (h : gmap addr intgRule) (w : world) : world :=
  World h (barq_classInstances w) (quadq_classInstances w) (triq_classInstances w)
    (hexq_classInstances w) (tetraq_classInstances w) (factories w) (InstanceMap w).

Definition set_factories (fs : gmap addr sideIntgFactory)
    (im : gmap (string * addr) addr) (w : world) : world :=
  World (heap w) (barq_classInstances w) (quadq_classInstances w) (triq_classInstances w)
    (hexq_classInstances w) (tetraq_classInstances w) fs im.

(** ** Calls that read and write the store *)

Definition M (A : Type) : Type := world → outcome A * world.

Definition ret {A} (a : A) : M A := λ w, (Ret a, w).

(** Sequencing: a thrown exception or undefined behaviour ends the call
    with the store as it is at that point. *)
Definition bind {A B} (m : M A) (f : A → M B) : M B := λ w,
  match m w with
  | (Ret a, w') => f a w'
  | (Throw msg, w') => (Throw msg, w')
  | (Undefined, w') => (Undefined, w')
  end.

Notation "'call' x ':=' m ';' k" := (bind m (λ x, k))
  (at level 10, x name, m at level 100, k at level 200).

(** [Throw() << msg] *)
Definition throw {A} (msg : string) : M A := λ w, (Throw msg, w).

(** [new T(...)]: the object is stored at an address not in use. *)
Definition new_rule (r : intgRule) : M addr := λ w,
  let p := fresh (dom (heap w)) in
  (Ret p, set_heap (<[p := r]> (heap w)) w).

(** Modelled from the spec: the parametric dimension a constructor passes
    to [intgRule] is not in the header.  The line rule is 1-D, the
    quadrilateral and triangle rules 2-D, the hexahedron and tetrahedron
    rules 3-D. *)
Definition class_dim (c : cached_class) : N :=
  match c with
  | barq => 1
  | quadq | triq => 2
  | hexq | tetraq => 3
  end.

(** Modelled from the spec: the constructors [barq(ord)], [quadq(ord)],
    [triq(q)], [hexq(q)] and [tetraq(q)] are declared private in the header
    and defined elsewhere.  The rule of a class for an order carries that
    order, the point count of the pair, and the dimension of the class;
    the generated points are written into the arrays the base constructor
    allocated, which keeps their sizes. *)
Definition cached_ctor (c : cached_class) (ord : N) : intgRule :=
  let r := intgRule_ctor (cached c) ord (point_count c ord) (class_dim c) in
  {| dyn := dyn r; q := q r; n := n r; pdim := pdim r;
     locs := fill (generated_locs c ord) (locs r);
     wgts := fill (generated_wgts c ord) (wgts r) |}.

(** Modelled from the spec: [barq::instance(q)] and its four siblings are
    declared in the header (lines 85, 103, 120, 138, 155) and defined
    elsewhere.  If the map of the class has an entry for the order it is
    returned; otherwise the rule is constructed, inserted and returned. *)
Definition instance (c : cached_class) (ord : N) : M addr := λ w,
  match classInstances c w !! ord with
  | Some p => (Ret p, w)
  | None =>
      (call p := new_rule (cached_ctor c ord);
       λ w', (Ret p, set_classInstances c (<[ord := p]> (classInstances c w')) w')) w
  end.

(** The virtual [side_rule()], header lines 71, 92, 110, 127, 145, 162.
    [this] is dispatched on the class of the object it points to. *)
Definition side_rule (this : addr) : M addr := λ w,
  match heap w !! this with
  | None => (Undefined, w)
  | Some r =>
      match dyn r with
      | arbq => throw "No side rule for arbq" w
      | cached barq => throw "No side rule for bar" w
      | cached quadq => instance barq (q r) w
      | cached triq => instance barq (q r) w
      | cached hexq => instance quadq (q r) w
      | cached tetraq => instance triq (q r) w
      end
  end.

(** The virtual [ChangeOrder(q)], header lines 75, 89, 107, 124, 142, 159. *)
Definition ChangeOrder (this : addr) (q' : N) : M addr := λ w,
  match heap w !! this with
  | None => (Undefined, w)
  | Some r =>
      match dyn r with
      | arbq => throw "Arbq doesnt swap order" w
      | cached c => instance c q' w
      end
  end.

(** Modelled from the spec: [Topo2Intg::operator()(q, toponame)] is
    declared in the header (line 177) and defined elsewhere.  A supported
    name gives the cached instance of its class for the order; any other
    name is a failure. *)
Definition Topo2Intg (q' : N) (toponame : string) : M addr :=
  match topo_class toponame with
  | Some c => instance c q'
  | None => throw "Unsupported topology for integration rule"
  end.

(** Modelled from the spec: the loop of the constructor
    [sideIntgFactory(topo, irule)], which is not in the header.  The side
    rules are collected side by side from side [first], each from the
    dispatcher for the shape name of the side. *)
Fixpoint build_side_rules (ord : N) (t : MeshObjTopo) (first count : nat) : M (list addr) :=
  match count with
  | O => ret []
  | S count' =>
      call r := Topo2Intg ord (side_topo_name t first);
      call rs := build_side_rules ord t (S first) count';
      ret (r :: rs)
  end.

(** Modelled from the spec: the constructor
    [sideIntgFactory(topo, irule)] is private and defined elsewhere.  Each
    side rule is obtained from the cache of the side's shape for the order
    carried by the base rule. *)
Definition sideIntgFactory_ctor (t : MeshObjTopo) (irule : addr) : M sideIntgFactory := λ w,
  match heap w !! irule with
  | None => (Undefined, w)
  | Some b =>
      (call rs := build_side_rules (order b) t 0 (N.to_nat (num_sides t));
       ret {| side_rules := rs; topo := t; base := irule |}) w
  end.

(** Modelled from the spec: [sideIntgFactory::instance(toponame,
    base_rule)] is declared in the header (line 194) and defined elsewhere;
    its [InstanceMap] (line 196) is keyed by the name and the address of
    the base rule.  An entry for the key is returned; otherwise the factory
    is created, stored under the key and returned. *)
Definition sideIntgFactory_instance (toponame : string) (base_rule : addr) : M addr := λ w,
  match InstanceMap w !! (toponame, base_rule) with
  | Some f => (Ret f, w)
  | None =>
      match GetTopo toponame with
      | None => throw "Unsupported topology for integration rule" w
      | Some t =>
          (call sf := sideIntgFactory_ctor t base_rule;
           λ w', let f := fresh (dom (factories w')) in
                 (Ret f, set_factories (<[f := sf]> (factories w'))
                           (<[(toponame, base_rule) := f]> (InstanceMap w')) w')) w
      end
  end.

(** Construction of an [arbq] on the heap: [new arbq(_pdim, nq, pcoord, _wgts)]. *)
Definition new_arbq (_pdim nq : N) (pcoord : list double)
    (_wgts : option (list double)) : M addr := λ w,
  match arbq_ctor _pdim nq pcoord _wgts with
  | Ret r => new_rule r w
  | Throw msg => (Throw msg, w)
  | Undefined => (Undefined, w)
  end.

(** ** Programs over the public interface *)

(** One call of a client of the header. *)
Inductive op : Type :=
  | Op_new_arbq (_pdim nq : N) (pcoord : list double) (_wgts : option (list double))
  | Op_instance (c : cached_class) (ord : N)
  | Op_Topo2Intg (q' : N) (toponame : string)
  | Op_side_rule (this : addr)
  | Op_ChangeOrder (this : addr) (q' : N)
  | Op_npoints (this : addr)
  | Op_order (this : addr)
  | Op_parametric_dim (this : addr)
  | Op_locations (this : addr)
  | Op_weights (this : addr)
  | Op_sideIntgFactory_instance (toponame : string) (base_rule : addr)
  | Op_GetSideRule (f : addr) (side_num : N).

(** The store after a call.  The accessors and [GetSideRule] are [const]
    and read only. *)
Definition exec (o : op) (w : world) : world :=
  match o with
  | Op_new_arbq d nq pc ws => snd (new_arbq d nq pc ws w)
  | Op_instance c ord => snd (instance c ord w)
  | Op_Topo2Intg q' name => snd (Topo2Intg q' name w)
  | Op_side_rule p => snd (side_rule p w)
  | Op_ChangeOrder p q' => snd (ChangeOrder p q' w)
  | Op_sideIntgFactory_instance name b => snd (sideIntgFactory_instance name b w)
  | Op_npoints _ | Op_order _ | Op_parametric_dim _
  | Op_locations _ | Op_weights _ | Op_GetSideRule _ _ => w
  end.

(** The store after a sequence of calls. *)
Definition run (os : list op) (w : world) : world := foldl (λ w o, exec o w) w os.

(** ** Invariants of the store *)

(** The arrays of a rule have the sizes its members announce. *)
Definition sized (r : intgRule) : Prop :=
  length (locs r) = N.to_nat (UInt_mul (n r) (pdim r)) ∧
  length (wgts r) = N.to_nat (n r).

(** [p] is the instance of class [c] for order [ord]: the entry of the
    map of the class, a live object of that class and order. *)
Definition is_instance (w : world) (c : cached_class) (ord : N) (p : addr) : Prop :=
  classInstances c w !! ord = Some p ∧
  ∃ r, heap w !! p = Some r ∧ dyn r = cached c ∧ order r = ord.

(** [rs] are the side rules of topology [t] for order [ord]: one per side,
    each the cached instance of the class of the side's shape. *)
Definition side_rules_of (w : world) (ord : N) (t : MeshObjTopo) (rs : list addr) : Prop :=
  length rs = N.to_nat (num_sides t) ∧
  ∀ i r, rs !! i = Some r →
    ∃ c, topo_class (side_topo_name t i) = Some c ∧ classInstances c w !! ord = Some r.

Record wf (w : world) : Prop := {
  wf_sized : ∀ p r, heap w !! p = Some r → sized r;
  wf_cached : ∀ c ord p, classInstances c w !! ord = Some p →
    ∃ r, heap w !! p = Some r ∧ dyn r = cached c ∧ q r = ord;
  wf_private : ∀ p r c, heap w !! p = Some r → dyn r = cached c →
    classInstances c w !! q r = Some p;
  wf_factory : ∀ name b f, InstanceMap w !! (name, b) = Some f →
    ∃ sf t rb, factories w !! f = Some sf ∧ GetTopo name = Some t ∧
      heap w !! b = Some rb ∧ topo sf = t ∧ base sf = b ∧
      side_rules_of w (order rb) t (side_rules sf)
}.

(** Nothing of [w] is removed or replaced in [w']. *)
Record extends (w w' : world) : Prop := {
  ext_heap : heap w ⊆ heap w';
  ext_cached : ∀ c, classInstances c w ⊆ classInstances c w';
  ext_factories : factories w ⊆ factories w';
  ext_InstanceMap : InstanceMap w ⊆ InstanceMap w'
}.

(** [side_rule()] on the rule [r] at [this] returns the instance of class
    [c'] for the order of [r]: the entry of the map of [c'], which a later
    [instance] returns again, and the entry that was there if there was
    one. *)
Definition side_rule_is_instance (w : world) (this : addr) (r : intgRule)
    (c' : cached_class) : Prop :=
  let w' := snd (side_rule this w) in
  ∃ p, side_rule this w = (Ret p, w') ∧
       is_instance w' c' (order r) p ∧
       instance c' (order r) w' = (Ret p, w') ∧
       (∀ p0, classInstances c' w !! order r = Some p0 → p = p0 ∧ w' = w).

(** A call keeps the store well formed and only adds to it. *)
Definition preserves {A} (m : world → outcome A * world) : Prop :=
  ∀ w, wf w → wf (snd (m w)) ∧ extends w (snd (m w)).

(** The class whose instance [side_rule()] of a class returns: [barq] for
    [quadq] and [triq] (header lines 111 and 128), [quadq] for [hexq] (line
    146), [triq] for [tetraq] (line 163); [barq] has none (line 93). *)
Definition side_class (c : cached_class) : option cached_class :=
  match c with
  | barq => None
  | quadq | triq => Some barq
  | hexq => Some quadq
  | tetraq => Some triq
  end.

End Quadrature.

(** ** Concrete runs *)

(** Two coordinates of a 1-D point set, and the [arbq] built from them. *)
Definition sample_pcoord : list (@double sample) := [5%Z; 7%Z].

Definition sample_arbq : intgRule (ext:=sample) :=
  {| dyn := arbq; q := 2; n := 2; pdim := 1;
     locs := Some <$> sample_pcoord; wgts := [None; None] |}.

(** A client that builds two [arbq] rules of order 2 from the same
    coordinates; they live at addresses 1 and 2. *)
Definition two_arbq_ops : list (op (ext:=sample)) :=
  [Op_new_arbq 1 2 sample_pcoord None; Op_new_arbq 1 2 sample_pcoord None].

Abbreviation two_arbq := (run (ext:=sample) two_arbq_ops start).

(** A client that asks for the quadrilateral and the hexahedron rule of
    order 2; they live at addresses 1 and 2. *)
Definition quad_and_hex_ops : list (op (ext:=sample)) :=
  [Op_instance quadq 2; Op_instance hexq 2].

Abbreviation quad_and_hex := (run (ext:=sample) quad_and_hex_ops start).

(** A client that asks for the quadrilateral and the triangle rule of
    order 2; they live at addresses 1 and 2. *)
Definition quad_and_tri_ops : list (op (ext:=sample)) :=
  [Op_instance quadq 2; Op_instance triq 2].

Abbreviation quad_and_tri := (run (ext:=sample) quad_and_tri_ops start).

Section QuadratureProofs.
Context {ext : Collaborators}.

(** ** The store accessors *)

Lemma classInstances_set_same c m w :
  classInstances c (set_classInstances c m w) = m.
Proof. by destruct c. Qed.

Lemma classInstances_set_other c c' m w :
  c ≠ c' → classInstances c' (set_classInstances c m w) = classInstances c' w.
Proof. by destruct c, c'. Qed.

Lemma heap_set_classInstances c m w : heap (set_classInstances c m w) = heap w.
Proof. by destruct c. Qed.

Lemma factories_set_classInstances c m w :
  factories (set_classInstances c m w) = factories w.
Proof. by destruct c. Qed.

Lemma InstanceMap_set_classInstances c m w :
  InstanceMap (set_classInstances c m w) = InstanceMap w.
Proof. by destruct c. Qed.

Lemma classInstances_set_heap c h w :
  classInstances c (set_heap h w) = classInstances c w.
Proof. by destruct c. Qed.

Lemma classInstances_set_factories c fs im w :
  classInstances c (set_factories fs im w) = classInstances c w.
Proof. by destruct c. Qed.

Lemma fresh_heap_None {A} (h : gmap addr A) : h !! fresh (dom h) = None.
Proof. apply not_elem_of_dom, is_fresh. Qed.

(** ** Order of extension *)

Lemma extends_refl w : extends w w.
Proof. by split. Qed.

Lemma extends_trans w1 w2 w3 : extends w1 w2 → extends w2 w3 → extends w1 w3.
Proof.
  intros [] []; split; try (etrans; eauto).
Qed.

Lemma side_rules_of_mono w w' ord t rs :
  extends w w' → side_rules_of w ord t rs → side_rules_of w' ord t rs.
Proof.
  intros Hext [Hlen Hrs]; split; [done|].
  intros i r Hi. destruct (Hrs i r Hi) as (c & Hc & Hl).
  exists c; split; [done|]. by eapply lookup_weaken, ext_cached.
Qed.

(** ** Array sizes *)

Lemma length_std_copy src count dst :
  (count ≤ length src)%nat → (count ≤ length dst)%nat →
  length (std_copy src count dst) = length dst.
Proof.
  intros Hs Hd. unfold std_copy.
  rewrite length_app, length_fmap, length_take, length_drop. lia.
Qed.

Lemma length_fill src dst : length (fill src dst) = length dst.
Proof. unfold fill. apply length_std_copy; lia. Qed.

Lemma intgRule_ctor_sized c _q _n _pdim : sized (intgRule_ctor c _q _n _pdim).
Proof. split; simpl; by rewrite length_replicate. Qed.

Lemma cached_ctor_sized c ord : sized (cached_ctor c ord).
Proof. split; simpl; by rewrite length_fill, length_replicate. Qed.

Lemma arbq_ctor_sized d nq pc ws r : arbq_ctor d nq pc ws = Ret r → sized r ∧ dyn r = arbq.
Proof.
  unfold arbq_ctor. simpl. case_decide; [done|].
  destruct ws as [ws|].
  - case_decide; [done|]. intros [= <-]. split; [|done]. split; simpl.
    + rewrite length_std_copy; rewrite ?length_replicate; lia.
    + rewrite length_std_copy; rewrite ?length_replicate; lia.
  - intros [= <-]. split; [|done]. split; simpl.
    + rewrite length_std_copy; rewrite ?length_replicate; lia.
    + by rewrite length_replicate.
Qed.

(** ** The rule caches *)

Lemma instance_hit c ord w p :
  classInstances c w !! ord = Some p → instance c ord w = (Ret p, w).
Proof. intros H. unfold instance. by rewrite H. Qed.

Lemma instance_miss c ord w :
  classInstances c w !! ord = None →
  instance c ord w =
    (Ret (fresh (dom (heap w))),
     set_classInstances c (<[ord := fresh (dom (heap w))]> (classInstances c w))
       (set_heap (<[fresh (dom (heap w)) := cached_ctor c ord]> (heap w)) w)).
Proof.
  intros H. unfold instance. rewrite H. unfold bind, new_rule.
  by rewrite classInstances_set_heap.
Qed.

Lemma classInstances_after_miss c c' ord p h w :
  classInstances c' (set_classInstances c (<[ord := p]> (classInstances c w)) (set_heap h w))
  = if decide (c = c') then <[ord := p]> (classInstances c w) else classInstances c' w.
Proof.
  case_decide as Hc.
  - subst c'. by rewrite classInstances_set_same.
  - by rewrite classInstances_set_other, classInstances_set_heap.
Qed.

Lemma instance_miss_extends c ord w :
  classInstances c w !! ord = None →
  extends w (snd (instance c ord w)).
Proof.
  intros Hnone. rewrite instance_miss by done. simpl. split.
  - rewrite heap_set_classInstances. simpl.
    apply insert_subseteq, fresh_heap_None.
  - intros c'. rewrite classInstances_after_miss. case_decide; [subst c'|done].
    by apply insert_subseteq.
  - by rewrite factories_set_classInstances.
  - by rewrite InstanceMap_set_classInstances.
Qed.

Lemma instance_miss_wf c ord w :
  wf w → classInstances c w !! ord = None → wf (snd (instance c ord w)).
Proof.
  intros Hwf Hnone. pose proof (instance_miss_extends c ord w Hnone) as Hext.
  revert Hext. rewrite instance_miss by done. simpl. intros Hext.
  set (p := fresh (dom (heap w))) in *.
  assert (Hp : heap w !! p = None) by apply fresh_heap_None.
  split.
  - intros p0 r. rewrite heap_set_classInstances. simpl.
    rewrite lookup_insert. case_decide.
    + intros [= <-]. apply cached_ctor_sized.
    + apply Hwf.
  - intros c' ord' p0. rewrite classInstances_after_miss, heap_set_classInstances. simpl.
    case_decide as Hc.
    + subst c'. rewrite lookup_insert. case_decide as Ho.
      * intros [= <-]. subst ord'. exists (cached_ctor c ord).
        by rewrite lookup_insert_eq.
      * intros Hl. destruct (wf_cached w Hwf _ _ _ Hl) as (r & Hr & Hd & Hq).
        exists r. split; [|done]. rewrite lookup_insert_ne; [done|congruence].
    + intros Hl. destruct (wf_cached w Hwf _ _ _ Hl) as (r & Hr & Hd & Hq).
      exists r. split; [|done]. rewrite lookup_insert_ne; [done|congruence].
  - intros p0 r c'. rewrite classInstances_after_miss, heap_set_classInstances. simpl.
    rewrite lookup_insert. case_decide as Hp0.
    + intros [= <-]. simpl. intros [= <-]. rewrite decide_True by done.
      subst p0. by rewrite lookup_insert_eq.
    + intros Hr Hd. pose proof (wf_private w Hwf _ _ _ Hr Hd) as Hl.
      case_decide as Hc; [subst c'|done].
      rewrite lookup_insert_ne; [done|congruence].
  - intros name b f. rewrite InstanceMap_set_classInstances, factories_set_classInstances,
      heap_set_classInstances. simpl. intros Hl.
    destruct (wf_factory w Hwf _ _ _ Hl) as (sf & t & rb & Hsf & Ht & Hb & Htopo & Hbase & Hrs).
    exists sf, t, rb. split_and!; try done.
    + rewrite lookup_insert_ne; [done|congruence].
    + by apply (side_rules_of_mono w).
Qed.

(** [instance] always returns; the store it leaves is well formed, extends
    the one it found, and holds the returned address under the order. *)
Lemma instance_ok c ord w :
  wf w →
  ∃ p, instance c ord w = (Ret p, snd (instance c ord w)) ∧
       wf (snd (instance c ord w)) ∧ extends w (snd (instance c ord w)) ∧
       is_instance (snd (instance c ord w)) c ord p.
Proof.
  intros Hwf. destruct (classInstances c w !! ord) as [p|] eqn:Hl.
  - rewrite (instance_hit _ _ _ _ Hl). simpl. exists p.
    split_and!; try done. split; [done|].
    destruct (wf_cached w Hwf _ _ _ Hl) as (r & ? & ? & ?). by exists r.
  - pose proof (instance_miss_wf c ord w Hwf Hl) as Hwf'.
    pose proof (instance_miss_extends c ord w Hl) as Hext.
    revert Hwf' Hext. rewrite instance_miss by done. simpl. intros Hwf' Hext.
    eexists. split; [done|]. split; [done|]. split; [done|].
    assert (Hin : classInstances c (set_classInstances c
        (<[ord:=fresh (dom (heap w))]> (classInstances c w))
        (set_heap (<[fresh (dom (heap w)):=cached_ctor c ord]> (heap w)) w)) !! ord
        = Some (fresh (dom (heap w)))).
    { by rewrite classInstances_set_same, lookup_insert_eq. }
    split; [done|].
    destruct (wf_cached _ Hwf' _ _ _ Hin) as (r & ? & ? & ?). by exists r.
Qed.

(** ** Every call preserves the invariants *)

Lemma preserves_ret {A} (a : A) : preserves (ret a).
Proof. intros w Hwf. split; [done|apply extends_refl]. Qed.

Lemma preserves_throw {A} msg : preserves (throw (A:=A) msg).
Proof. intros w Hwf. split; [done|apply extends_refl]. Qed.

Lemma preserves_bind {A B} (m : M A) (f : A → M B) :
  preserves m → (∀ a, preserves (f a)) → preserves (bind m f).
Proof.
  intros Hm Hf w Hwf. unfold bind. destruct (Hm w Hwf) as [Hwf1 Hext1].
  destruct (m w) as [[a|msg|] w1]; simpl in *; [|done..].
  destruct (Hf a w1 Hwf1) as [Hwf2 Hext2]. split; [done|].
  by eapply extends_trans.
Qed.

Lemma preserves_instance c ord : preserves (instance c ord).
Proof. intros w Hwf. destruct (instance_ok c ord w Hwf) as (p & _ & ? & ? & _). done. Qed.

Lemma preserves_side_rule this : preserves (side_rule this).
Proof.
  intros w Hwf. unfold side_rule.
  destruct (heap w !! this) as [r|]; [|split; [done|apply extends_refl]].
  destruct (dyn r) as [|[]];
    first [by apply preserves_throw | by apply preserves_instance].
Qed.

Lemma preserves_ChangeOrder this q' : preserves (ChangeOrder this q').
Proof.
  intros w Hwf. unfold ChangeOrder.
  destruct (heap w !! this) as [r|]; [|split; [done|apply extends_refl]].
  destruct (dyn r) as [|c];
    first [by apply preserves_throw | by apply preserves_instance].
Qed.

Lemma preserves_Topo2Intg q' name : preserves (Topo2Intg q' name).
Proof.
  unfold Topo2Intg. destruct (topo_class name);
    [apply preserves_instance | apply preserves_throw].
Qed.

Lemma preserves_build_side_rules ord t first count :
  preserves (build_side_rules ord t first count).
Proof.
  revert first. induction count as [|count IH]; intros first; simpl.
  - apply preserves_ret.
  - apply preserves_bind; [apply preserves_Topo2Intg|]. intros r.
    apply preserves_bind; [apply IH|]. intros rs. apply preserves_ret.
Qed.

Lemma new_rule_arbq_wf r w :
  wf w → sized r → dyn r = arbq →
  wf (snd (new_rule r w)) ∧ extends w (snd (new_rule r w)).
Proof.
  intros Hwf Hsz Hdyn. unfold new_rule. simpl.
  set (p := fresh (dom (heap w))).
  assert (Hp : heap w !! p = None) by apply fresh_heap_None.
  assert (Hext : extends w (set_heap (<[p:=r]> (heap w)) w)).
  { split; try done. simpl. by apply insert_subseteq. }
  split; [|done]. split.
  - intros p0 r0. simpl. rewrite lookup_insert. case_decide.
    + by intros [= <-].
    + apply Hwf.
  - intros c ord p0. rewrite classInstances_set_heap. simpl. intros Hl.
    destruct (wf_cached w Hwf _ _ _ Hl) as (r0 & Hr0 & ? & ?).
    exists r0. split; [|done]. rewrite lookup_insert_ne; [done|congruence].
  - intros p0 r0 c. rewrite classInstances_set_heap. simpl.
    rewrite lookup_insert. case_decide.
    + intros [= <-]. congruence.
    + apply Hwf.
  - intros name b f. simpl. intros Hl.
    destruct (wf_factory w Hwf _ _ _ Hl) as (sf & t & rb & Hsf & Ht & Hb & Htopo & Hbase & Hrs).
    exists sf, t, rb. split_and!; try done.
    rewrite lookup_insert_ne; [done|congruence].
Qed.

Lemma preserves_new_arbq d nq pc ws : preserves (new_arbq d nq pc ws).
Proof.
  intros w Hwf. unfold new_arbq.
  destruct (arbq_ctor d nq pc ws) as [r|msg|] eqn:Hc;
    [|split; [done|apply extends_refl]..].
  destruct (arbq_ctor_sized _ _ _ _ _ Hc). by apply new_rule_arbq_wf.
Qed.

(** The rules a factory collects are the cached instances of the sides. *)
Lemma build_side_rules_ok ord t count first w rs w' :
  wf w → build_side_rules ord t first count w = (Ret rs, w') →
  length rs = count ∧
  ∀ i r, rs !! i = Some r →
    ∃ c, topo_class (side_topo_name t (first + i)) = Some c ∧
         classInstances c w' !! ord = Some r.
Proof.
  revert first w rs w'. induction count as [|count IH]; intros first w rs w' Hwf; simpl.
  - unfold ret. intros [= <- <-]. split; [done|]. intros i r. by rewrite lookup_nil.
  - unfold bind at 1. unfold Topo2Intg.
    destruct (topo_class (side_topo_name t first)) as [c|] eqn:Hc; [|done].
    destruct (instance_ok c ord w Hwf) as (p & Hi & Hwf1 & _ & Hp & _).
    rewrite Hi. set (w1 := snd (instance c ord w)) in *.
    pose proof (preserves_build_side_rules ord t (S first) count w1 Hwf1) as [_ Hext].
    unfold bind. destruct (build_side_rules ord t (S first) count w1) as [[rs'|msg|] w2] eqn:Hb;
      [|done..].
    unfold ret. intros [= <- <-]. destruct (IH _ _ _ _ Hwf1 Hb) as [Hlen Hrs].
    split; [simpl; by rewrite Hlen|]. intros [|i] r; simpl.
    + intros [= <-]. exists c. rewrite Nat.add_0_r. split; [done|].
      by eapply lookup_weaken, ext_cached.
    + intros Hl. replace (first + S i)%nat with (S first + i)%nat by lia. by apply Hrs.
Qed.

(** ** The factory map *)

Lemma bind_eq {A B} (m : M A) (f : A → M B) w :
  bind m f w = match m w with
               | (Ret a, w') => f a w'
               | (Throw msg, w') => (Throw msg, w')
               | (Undefined, w') => (Undefined, w')
               end.
Proof. done. Qed.

(** The rule caches never touch the factories. *)
Lemma instance_factories c ord w :
  factories (snd (instance c ord w)) = factories w ∧
  InstanceMap (snd (instance c ord w)) = InstanceMap w.
Proof.
  destruct (classInstances c w !! ord) as [p|] eqn:Hl.
  - by rewrite (instance_hit _ _ _ _ Hl).
  - rewrite instance_miss by done. simpl.
    by rewrite factories_set_classInstances, InstanceMap_set_classInstances.
Qed.

Lemma build_side_rules_factories ord t count first w :
  factories (snd (build_side_rules ord t first count w)) = factories w ∧
  InstanceMap (snd (build_side_rules ord t first count w)) = InstanceMap w.
Proof.
  revert first w. induction count as [|count IH]; intros first w; simpl; [done|].
  rewrite !bind_eq. unfold Topo2Intg.
  destruct (topo_class (side_topo_name t first)) as [c|]; [|done].
  pose proof (instance_factories c ord w) as [Hf Hm].
  destruct (instance c ord w) as [[p|msg|] w1]; simpl in *; [|done..].
  rewrite !bind_eq. pose proof (IH (S first) w1) as [Hf' Hm'].
  destruct (build_side_rules ord t (S first) count w1) as [[rs|msg|] w2]; simpl in *;
    by rewrite ?Hf', ?Hm'.
Qed.

Lemma sideIntgFactory_instance_hit name b w f :
  InstanceMap w !! (name, b) = Some f →
  sideIntgFactory_instance name b w = (Ret f, w).
Proof. intros H. unfold sideIntgFactory_instance. by rewrite H. Qed.

Lemma sideIntgFactory_instance_unfold name b w t :
  InstanceMap w !! (name, b) = None →
  GetTopo name = Some t →
  sideIntgFactory_instance name b w =
    match heap w !! b with
    | None => (Undefined, w)
    | Some rb =>
        match build_side_rules (order rb) t 0 (N.to_nat (num_sides t)) w with
        | (Ret rs, w1) =>
            (Ret (fresh (dom (factories w1))),
             set_factories
               (<[fresh (dom (factories w1)) := {| side_rules := rs; topo := t; base := b |}]>
                  (factories w1))
               (<[(name, b) := fresh (dom (factories w1))]> (InstanceMap w1)) w1)
        | (Throw msg, w1) => (Throw msg, w1)
        | (Undefined, w1) => (Undefined, w1)
        end
    end.
Proof.
  intros Hm Ht. unfold sideIntgFactory_instance, sideIntgFactory_ctor.
  rewrite Hm, Ht. unfold bind.
  destruct (heap w !! b) as [rb|]; [|done].
  by destruct (build_side_rules (order rb) t 0 (N.to_nat (num_sides t)) w) as [[rs|msg|] w1].
Qed.

Lemma sideIntgFactory_instance_miss name b w t rb rs w1 :
  InstanceMap w !! (name, b) = None →
  GetTopo name = Some t →
  heap w !! b = Some rb →
  build_side_rules (order rb) t 0 (N.to_nat (num_sides t)) w = (Ret rs, w1) →
  sideIntgFactory_instance name b w =
    (Ret (fresh (dom (factories w1))),
     set_factories
       (<[fresh (dom (factories w1)) := {| side_rules := rs; topo := t; base := b |}]>
          (factories w1))
       (<[(name, b) := fresh (dom (factories w1))]> (InstanceMap w1)) w1).
Proof.
  intros Hm Ht Hb Hrs. rewrite (sideIntgFactory_instance_unfold _ _ _ _ Hm Ht).
  by rewrite Hb, Hrs.
Qed.

(** A call either hits the map, or misses and inserts a factory built
    from the side rules, or fails; a failed call leaves the store as the
    side rules built so far left it. *)
Lemma sideIntgFactory_instance_cases name b w :
  (∃ f, InstanceMap w !! (name, b) = Some f ∧
        sideIntgFactory_instance name b w = (Ret f, w)) ∨
  (InstanceMap w !! (name, b) = None ∧
   ((∃ t rb rs w1, GetTopo name = Some t ∧ heap w !! b = Some rb ∧
       build_side_rules (order rb) t 0 (N.to_nat (num_sides t)) w = (Ret rs, w1)) ∨
    (¬ returns (fst (sideIntgFactory_instance name b w)) ∧
     (snd (sideIntgFactory_instance name b w) = w ∨
      ∃ ord t count, snd (sideIntgFactory_instance name b w)
                     = snd (build_side_rules ord t 0 count w))))).
Proof.
  destruct (InstanceMap w !! (name, b)) as [f|] eqn:Hm.
  { left. exists f. split; [done|]. by apply sideIntgFactory_instance_hit. }
  right. split; [done|].
  destruct (GetTopo name) as [t|] eqn:Ht.
  2:{ right. unfold sideIntgFactory_instance. rewrite Hm, Ht.
      split; [by intros [? [=]]|by left]. }
  rewrite (sideIntgFactory_instance_unfold _ _ _ _ Hm Ht).
  destruct (heap w !! b) as [rb|] eqn:Hb.
  2:{ right. split; [by intros [? [=]]|by left]. }
  destruct (build_side_rules (order rb) t 0 (N.to_nat (num_sides t)) w) as [[rs|msg|] w1] eqn:Hrs.
  - left. by exists t, rb, rs, w1.
  - right. split; [by intros [? [=]]|].
    right. exists (order rb), t, (N.to_nat (num_sides t)). by rewrite Hrs.
  - right. split; [by intros [? [=]]|].
    right. exists (order rb), t, (N.to_nat (num_sides t)). by rewrite Hrs.
Qed.

Lemma sideIntgFactory_insert_wf name b t rb rs w1 :
  wf w1 → InstanceMap w1 !! (name, b) = None →
  GetTopo name = Some t → heap w1 !! b = Some rb →
  side_rules_of w1 (order rb) t rs →
  let f := fresh (dom (factories w1)) in
  let w' := set_factories (<[f := {| side_rules := rs; topo := t; base := b |}]> (factories w1))
              (<[(name, b) := f]> (InstanceMap w1)) w1 in
  wf w' ∧ extends w1 w'.
Proof.
  intros Hwf Hm Ht Hb Hrs f w'.
  assert (Hf : factories w1 !! f = None) by apply fresh_heap_None.
  assert (Hext : extends w1 w').
  { unfold w'. split; simpl; try done; by apply insert_subseteq. }
  split; [|done]. split.
  - intros p r. simpl. apply Hwf.
  - intros c ord p. unfold w'. rewrite classInstances_set_factories. simpl. apply Hwf.
  - intros p r c. unfold w'. rewrite classInstances_set_factories. simpl. apply Hwf.
  - intros name' b' f'. simpl. rewrite lookup_insert. case_decide as Hk.
    + injection Hk as <- <-. intros [= <-].
      exists {| side_rules := rs; topo := t; base := b |}, t, rb.
      rewrite lookup_insert_eq. split_and!; try done;
        by apply (side_rules_of_mono w1).
    + intros Hl.
      destruct (wf_factory w1 Hwf _ _ _ Hl) as (sf & t' & rb' & Hsf & Ht' & Hb' & ? & ? & Hrs').
      exists sf, t', rb'. split_and!; try done;
        first [ rewrite lookup_insert_ne; [done|congruence]
              | by apply (side_rules_of_mono w1) ].
Qed.

Lemma preserves_sideIntgFactory_instance name b :
  preserves (sideIntgFactory_instance name b).
Proof.
  intros w Hwf.
  destruct (sideIntgFactory_instance_cases name b w)
    as [(f & _ & ->)|[Hm [(t & rb & rs & w1 & Ht & Hb & Hrs)|(_ & [->|(ord & t & count & ->)])]]].
  - split; [done|apply extends_refl].
  - rewrite (sideIntgFactory_instance_miss _ _ _ _ _ _ _ Hm Ht Hb Hrs). simpl.
    pose proof (preserves_build_side_rules (order rb) t 0 (N.to_nat (num_sides t)) w Hwf)
      as [Hwf1 Hext1].
    pose proof (build_side_rules_factories (order rb) t (N.to_nat (num_sides t)) 0 w)
      as [_ Him].
    rewrite Hrs in Hwf1, Hext1, Him. simpl in *.
    destruct (build_side_rules_ok _ _ _ _ _ _ _ Hwf Hrs) as [Hlen Hall].
    assert (Hm1 : InstanceMap w1 !! (name, b) = None) by (by rewrite Him).
    assert (Hb1 : heap w1 !! b = Some rb) by (by eapply lookup_weaken, ext_heap).
    assert (Hso : side_rules_of w1 (order rb) t rs).
    { split; [done|]. intros i r Hi. apply (Hall i r Hi). }
    destruct (sideIntgFactory_insert_wf name b t rb rs w1 Hwf1 Hm1 Ht Hb1 Hso) as [Hwf' Hext'].
    split; [done|]. by eapply extends_trans.
  - split; [done|apply extends_refl].
  - by apply preserves_build_side_rules.
Qed.

(** ** Reachable stores *)

Lemma wf_start : wf start.
Proof.
  split.
  - intros p r. simpl. by rewrite lookup_empty.
  - intros [] ord p; simpl; by rewrite lookup_empty.
  - intros p r c. simpl. by rewrite lookup_empty.
  - intros name b f. simpl. by rewrite lookup_empty.
Qed.

Lemma exec_ok o w : wf w → wf (exec o w) ∧ extends w (exec o w).
Proof.
  intros Hwf. destruct o; simpl;
    first [ by apply preserves_new_arbq | by apply preserves_instance
          | by apply preserves_Topo2Intg | by apply preserves_side_rule
          | by apply preserves_ChangeOrder | by apply preserves_sideIntgFactory_instance
          | split; [done|apply extends_refl] ].
Qed.

Lemma run_ok os w : wf w → wf (run os w) ∧ extends w (run os w).
Proof.
  revert w. induction os as [|o os IH]; intros w Hwf; simpl.
  - split; [done|apply extends_refl].
  - destruct (exec_ok o w Hwf) as [Hwf1 Hext1].
    destruct (IH _ Hwf1) as [Hwf2 Hext2]. split; [done|]. by eapply extends_trans.
Qed.

Lemma wf_run os : wf (run os start).
Proof. apply run_ok, wf_start. Qed.

(** ** The caches seen by a client *)

Lemma is_instance_later w w' c ord p :
  wf w' → extends w w' → is_instance w c ord p → is_instance w' c ord p.
Proof.
  intros Hwf Hext [Hl _].
  assert (Hl' : classInstances c w' !! ord = Some p) by (by eapply lookup_weaken, ext_cached).
  split; [done|]. destruct (wf_cached w' Hwf _ _ _ Hl') as (r & ? & ? & ?). by exists r.
Qed.

(** C4. In every store a client can reach, [instance(order)] of a class
    returns a rule, and after any further calls [instance(order)] of that
    class returns the same address and leaves the store alone: the cache
    never yields two instances for one class and order. *)
Theorem instance_identity (before between : list op) (c : cached_class) (ord : N) :
  let w := run before start in
  let w1 := snd (instance c ord w) in
  let w2 := run between w1 in
  ∃ p, instance c ord w = (Ret p, w1) ∧
       instance c ord w2 = (Ret p, w2) ∧
       is_instance w2 c ord p.
Proof.
  intros w w1 w2.
  destruct (instance_ok c ord w (wf_run before)) as (p & Hi & Hwf1 & _ & Hp).
  destruct (run_ok between w1 Hwf1) as [Hwf2 Hext2].
  pose proof (is_instance_later _ _ _ _ _ Hwf2 Hext2 Hp) as Hp2.
  exists p. split; [done|]. split; [|done].
  apply instance_hit, Hp2.
Qed.

(** C6. [ChangeOrder(q')] on a rule of one of the five cached classes
    returns the instance of the same class for order [q']: the entry of
    the class map under [q'], which a later [instance(q')] returns again;
    if the entry was there before the call, it is that entry. *)
Theorem ChangeOrder_cached_singleton (os : list op) (this : addr) (r : intgRule)
    (c : cached_class) (q' : N) :
  let w := run os start in
  heap w !! this = Some r → dyn r = cached c →
  let w' := snd (ChangeOrder this q' w) in
  ∃ p, ChangeOrder this q' w = (Ret p, w') ∧
       is_instance w' c q' p ∧
       instance c q' w' = (Ret p, w') ∧
       (∀ p0, classInstances c w !! q' = Some p0 → p = p0 ∧ w' = w).
Proof.
  intros w Hr Hdyn. unfold ChangeOrder. rewrite Hr, Hdyn. simpl.
  destruct (instance_ok c q' w (wf_run os)) as (p & Hi & Hwf1 & _ & Hp).
  exists p. split; [done|]. split; [done|]. split; [apply instance_hit, Hp|].
  intros p0 Hp0. rewrite (instance_hit _ _ _ _ Hp0) in Hi |- *. by injection Hi as ->.
Qed.

Lemma side_rule_delegates os this r c' :
  heap (run os start) !! this = Some r →
  side_rule this (run os start) = instance c' (order r) (run os start) →
  side_rule_is_instance (run os start) this r c'.
Proof.
  intros Hr Heq. unfold side_rule_is_instance. rewrite Heq.
  destruct (instance_ok c' (order r) (run os start) (wf_run os)) as (p & Hi & Hwf1 & _ & Hp).
  exists p. split; [done|]. split; [done|]. split; [apply instance_hit, Hp|].
  intros p0 Hp0. rewrite (instance_hit _ _ _ _ Hp0) in Hi |- *. by injection Hi as ->.
Qed.

(** C3. [side_rule()] on the quadrilateral rule of order [q] returns the
    line rule of order [q], on the hexahedron rule the quadrilateral rule
    of order [q], on the tetrahedron rule the triangle rule of order [q]:
    in each case the cached instance for the order of the receiver. *)
Theorem side_rule_lower_dimension (os : list op) (this : addr) (r : intgRule) :
  let w := run os start in
  heap w !! this = Some r →
  (dyn r = cached quadq → side_rule_is_instance w this r barq) ∧
  (dyn r = cached hexq → side_rule_is_instance w this r quadq) ∧
  (dyn r = cached tetraq → side_rule_is_instance w this r triq).
Proof.
  intros w Hr. split_and!; intros Hdyn; apply side_rule_delegates; try done;
    unfold side_rule; fold w; by rewrite Hr, Hdyn.
Qed.

(** C9. A rule in a reachable store has a coordinate array of point count
    times dimension cells and a weight array of point count cells, and no
    later call changes the object: point count, order, dimension and both
    arrays stay as they were constructed. *)
Theorem rule_members_fixed (os : list op) (this : addr) (r : intgRule) :
  let w := run os start in
  heap w !! this = Some r →
  length (locations r) = N.to_nat (UInt_mul (npoints r) (parametric_dim r)) ∧
  (npoints r * parametric_dim r < 2 ^ UInt_bits →
     length (locations r) = N.to_nat (npoints r * parametric_dim r)) ∧
  length (weights r) = N.to_nat (npoints r) ∧
  ∀ os', ∃ r', heap (run os' w) !! this = Some r' ∧
    npoints r' = npoints r ∧ order r' = order r ∧
    parametric_dim r' = parametric_dim r ∧
    locations r' = locations r ∧ weights r' = weights r.
Proof.
  intros w Hr. destruct (wf_sized w (wf_run os) _ _ Hr) as [Hl Hw].
  split; [done|]. split; [|split; [done|]].
  - intros Hlt. unfold locations. rewrite Hl. unfold UInt_mul, npoints, parametric_dim in *.
    by rewrite N.mod_small.
  - intros os'. destruct (run_ok os' w (wf_run os)) as [_ Hext].
    exists r. split; [|done]. by eapply lookup_weaken, ext_heap.
Qed.

(** ** The side-rule factory seen by a client *)

Lemma sideIntgFactory_instance_ok name b w f :
  wf w → fst (sideIntgFactory_instance name b w) = Ret f →
  wf (snd (sideIntgFactory_instance name b w)) ∧
  extends w (snd (sideIntgFactory_instance name b w)) ∧
  InstanceMap (snd (sideIntgFactory_instance name b w)) !! (name, b) = Some f.
Proof.
  intros Hwf Hret.
  destruct (preserves_sideIntgFactory_instance name b w Hwf) as [Hwf' Hext].
  split; [done|]. split; [done|]. clear Hwf' Hext. revert Hret.
  destruct (sideIntgFactory_instance_cases name b w)
    as [(f' & Hm & ->)|[Hm [(t & rb & rs & w1 & Ht & Hb & Hrs)|(Hno & _)]]].
  - simpl. by intros [= <-].
  - rewrite (sideIntgFactory_instance_miss _ _ _ _ _ _ _ Hm Ht Hb Hrs). simpl.
    intros [= <-]. by rewrite lookup_insert_eq.
  - intros Hret. destruct Hno. by exists f.
Qed.

(** The side rules of a topology for an order are determined by the
    store. *)
Lemma side_rules_of_functional w ord t rs1 rs2 :
  side_rules_of w ord t rs1 → side_rules_of w ord t rs2 → rs1 = rs2.
Proof.
  intros [Hlen1 H1] [Hlen2 H2]. apply list_eq. intros i.
  destruct (rs1 !! i) as [r1|] eqn:Hr1.
  - assert (is_Some (rs2 !! i)) as [r2 Hr2].
    { apply lookup_lt_is_Some. rewrite Hlen2, <- Hlen1. by eapply lookup_lt_Some. }
    destruct (H1 _ _ Hr1) as (c1 & Hc1 & Hl1). destruct (H2 _ _ Hr2) as (c2 & Hc2 & Hl2).
    rewrite Hr2. congruence.
  - symmetry. apply lookup_ge_None. rewrite Hlen2, <- Hlen1. by apply lookup_ge_None.
Qed.

(** C1, as the code has it.  The side-rule set built for a topology has
    one entry per side.  [GetSideRule(side_num)] returns the entry for a
    [side_num] below the side count; for a [side_num] at or past the side
    count it reads outside the vector without a check: the call has no
    defined behaviour and raises no error. *)
Theorem GetSideRule_range (os : list op) (toponame : string) (base_rule f : addr) :
  let w := run os start in
  let w' := snd (sideIntgFactory_instance toponame base_rule w) in
  fst (sideIntgFactory_instance toponame base_rule w) = Ret f →
  ∃ sf t, factories w' !! f = Some sf ∧ GetTopo toponame = Some t ∧
    length (side_rules sf) = N.to_nat (num_sides t) ∧
    ∀ side_num,
      (side_num < num_sides t →
         ∃ r, GetSideRule sf side_num = Ret r ∧
              side_rules sf !! N.to_nat side_num = Some r) ∧
      (num_sides t ≤ side_num →
         GetSideRule sf side_num = Undefined ∧ ¬ throws (GetSideRule sf side_num)).
Proof.
  intros w w' Hret.
  destruct (sideIntgFactory_instance_ok _ _ w _ (wf_run os) Hret) as (Hwf' & _ & Hm).
  destruct (wf_factory _ Hwf' _ _ _ Hm) as (sf & t & rb & Hsf & Ht & _ & _ & _ & Hlen & _).
  exists sf, t. split_and!; try done.
  intros side_num. unfold GetSideRule. split.
  - intros Hlt. destruct (lookup_lt_is_Some_2 (side_rules sf) (N.to_nat side_num)) as [r Hr];
      [lia|]. exists r. by rewrite Hr.
  - intros Hge. rewrite (proj2 (lookup_ge_None _ _)) by lia.
    split; [done|]. by intros [? [=]].
Qed.

(** C2, as the code has it.  The factory map is keyed by the address of
    the base rule: two calls for one topology name with base rules of the
    same order return factories that hold the same side rules, entry by
    entry; the two factories are one object exactly when the two base rules
    are one object. *)
Theorem sideIntgFactory_instance_same_order (os : list op) (toponame : string)
    (r1 r2 : addr) (b1 b2 : intgRule) (f1 f2 : addr) :
  let w := run os start in
  let w1 := snd (sideIntgFactory_instance toponame r1 w) in
  let w2 := snd (sideIntgFactory_instance toponame r2 w1) in
  heap w !! r1 = Some b1 → heap w !! r2 = Some b2 → order b1 = order b2 →
  fst (sideIntgFactory_instance toponame r1 w) = Ret f1 →
  fst (sideIntgFactory_instance toponame r2 w1) = Ret f2 →
  ∃ sf1 sf2, factories w2 !! f1 = Some sf1 ∧ factories w2 !! f2 = Some sf2 ∧
    side_rules sf1 = side_rules sf2 ∧
    (f1 = f2 ↔ r1 = r2).
Proof.
  intros w w1 w2 Hb1 Hb2 Hord Hret1 Hret2.
  destruct (sideIntgFactory_instance_ok _ _ w _ (wf_run os) Hret1) as (Hwf1 & Hext1 & Hm1).
  destruct (sideIntgFactory_instance_ok _ _ w1 _ Hwf1 Hret2) as (Hwf2 & Hext2 & Hm2).
  fold w1 in Hwf1, Hext1, Hm1. fold w2 in Hwf2, Hext2, Hm2.
  pose proof (lookup_weaken _ _ _ _ Hm1 (ext_InstanceMap _ _ Hext2)) as Hm1'.
  assert (Hh1 : heap w2 !! r1 = Some b1).
  { eapply lookup_weaken, ext_heap, Hext2. by eapply lookup_weaken, ext_heap, Hext1. }
  assert (Hh2 : heap w2 !! r2 = Some b2).
  { eapply lookup_weaken, ext_heap, Hext2. by eapply lookup_weaken, ext_heap, Hext1. }
  destruct (wf_factory _ Hwf2 _ _ _ Hm1')
    as (sf1 & t1 & rb1 & Hsf1 & Ht1 & Hrb1 & _ & Hbase1 & Hrs1).
  destruct (wf_factory _ Hwf2 _ _ _ Hm2)
    as (sf2 & t2 & rb2 & Hsf2 & Ht2 & Hrb2 & _ & Hbase2 & Hrs2).
  assert (rb1 = b1) as -> by congruence. assert (rb2 = b2) as -> by congruence.
  assert (t2 = t1) as -> by congruence. rewrite <- Hord in Hrs2.
  exists sf1, sf2. split_and!; try done.
  - by eapply side_rules_of_functional.
  - split; [intros ->; congruence|]. intros ->. congruence.
Qed.

(** ** The rules *)

(** C10. An [arbq] built from [nq] points of dimension [_pdim] reports
    order [nq], point count [nq] and dimension [_pdim]; its coordinate
    array holds the [nq * _pdim] supplied coordinates; its weight array
    holds the supplied weights when a weights pointer is given and is left
    unwritten when the pointer is null. *)
Theorem arbq_ctor_spec (_pdim nq : N) (pcoord : list double) (_wgts : option (list double)) :
  (N.to_nat (UInt_mul nq _pdim) ≤ length pcoord)%nat →
  (∀ ws, _wgts = Some ws → (N.to_nat nq ≤ length ws)%nat) →
  ∃ r, arbq_ctor _pdim nq pcoord _wgts = Ret r ∧
       order r = nq ∧ npoints r = nq ∧ parametric_dim r = _pdim ∧
       locations r = Some <$> take (N.to_nat (UInt_mul nq _pdim)) pcoord ∧
       (length pcoord = N.to_nat (UInt_mul nq _pdim) → locations r = Some <$> pcoord) ∧
       (nq * _pdim < 2 ^ UInt_bits → length (locations r) = N.to_nat (nq * _pdim)) ∧
       weights r = match _wgts with
                   | Some ws => Some <$> take (N.to_nat nq) ws
                   | None => replicate (N.to_nat nq) None
                   end.
Proof.
  intros Hpc Hws. unfold arbq_ctor. simpl.
  rewrite decide_False by lia.
  assert (Hlocs : std_copy pcoord (N.to_nat (UInt_mul nq _pdim))
                    (replicate (N.to_nat (UInt_mul nq _pdim)) None)
                  = Some <$> take (N.to_nat (UInt_mul nq _pdim)) pcoord).
  { unfold std_copy. rewrite drop_ge by (by rewrite length_replicate).
    by rewrite app_nil_r. }
  destruct _wgts as [ws|].
  - rewrite decide_False by (specialize (Hws ws eq_refl); lia).
    eexists. split; [done|]. simpl. unfold order, npoints, parametric_dim, locations, weights.
    simpl. rewrite Hlocs. split_and!; try done.
    + intros Hlen. by rewrite <- Hlen, firstn_all.
    + intros Hlt. rewrite length_fmap, length_take, Nat.min_l by done.
      unfold UInt_mul. by rewrite N.mod_small.
    + unfold std_copy. rewrite drop_ge by (by rewrite length_replicate).
      by rewrite app_nil_r.
  - eexists. split; [done|]. unfold order, npoints, parametric_dim, locations, weights.
    simpl. rewrite Hlocs. split_and!; try done.
    + intros Hlen. by rewrite <- Hlen, firstn_all.
    + intros Hlt. rewrite length_fmap, length_take, Nat.min_l by done.
      unfold UInt_mul. by rewrite N.mod_small.
Qed.

(** C5. [side_rule()] on an [arbq] and on a [barq] leaves through
    [Throw()] and returns no rule; so does [ChangeOrder] on an [arbq].
    The store is as before the call. *)
Theorem unsupported_operations (w : world) (this : addr) (r : intgRule) (q' : N) :
  heap w !! this = Some r →
  (dyn r = arbq →
     side_rule this w = (Throw "No side rule for arbq", w) ∧
     ChangeOrder this q' w = (Throw "Arbq doesnt swap order", w)) ∧
  (dyn r = cached barq →
     side_rule this w = (Throw "No side rule for bar", w)).
Proof.
  intros Hr. unfold side_rule, ChangeOrder. rewrite Hr.
  split; intros ->; done.
Qed.

(** C8. For every order, a topology name that no class integrates makes
    the dispatcher leave through [Throw()]; no rule is returned and none is
    created. *)
Theorem Topo2Intg_unsupported (q' : N) (toponame : string) (w : world) :
  topo_class toponame = None →
  throws (fst (Topo2Intg q' toponame w)) ∧
  ¬ returns (fst (Topo2Intg q' toponame w)) ∧
  snd (Topo2Intg q' toponame w) = w.
Proof.
  intros Hnone. unfold Topo2Intg. rewrite Hnone. simpl. split_and!; [|by intros [? [=]]|done].
  by eexists.
Qed.

End QuadratureProofs.

(** ** The Point Generator *)

Lemma gauss_legendre_rule_1 : gauss_legendre_rule 1 [0%R] [2%R].
Proof.
  split; [done|]. split; [done|].
  intros [|a [|b [|c p]]] Hlen; unfold integral; simpl in *; unfold moment; simpl;
    try lra; lia.
Qed.

Lemma gauss_legendre_rule_1_unique xs ws :
  gauss_legendre_rule 1 xs ws → xs = [0%R] ∧ ws = [2%R].
Proof.
  intros (Hx & Hw & Hex).
  destruct xs as [|x [|? ?]]; try done. destruct ws as [|w [|? ?]]; try done.
  pose proof (Hex [1%R] ltac:(simpl; lia)) as H0.
  pose proof (Hex [0%R; 1%R] ltac:(simpl; lia)) as H1.
  unfold integral in H0, H1. simpl in H0, H1. unfold moment in H0, H1. simpl in H0, H1.
  assert (w = 2%R) as -> by lra.
  assert (x = 0%R) as -> by lra.
  done.
Qed.

(** C7. With [n = 1] the generator writes the single abscissa 0 and, when
    a weights array is supplied, the single weight 2; with [n = 0] (the
    only [UInt] that is not positive) it stops on the precondition and
    writes nothing. *)
Theorem gauss_legendre_one_and_zero (wghts : bool) (o : generated) :
  (gauss_legendre 1 wghts o ↔ o = Written [0%R] (if wghts then Some [2%R] else None)) ∧
  (gauss_legendre 0 wghts o ↔ o = Precondition_failure).
Proof.
  split; split.
  - intros [Hn|xs ws _ Hrule]; [done|].
    apply gauss_legendre_rule_1_unique in Hrule as [-> ->]. done.
  - intros ->. apply (gauss_legendre_points 1 wghts [0%R] [2%R]); [done|].
    apply gauss_legendre_rule_1.
  - intros [Hn|xs ws Hpos _]; [done|]. by apply N.lt_irrefl in Hpos.
  - intros ->. by constructor.
Qed.

(** ** The definitions on concrete inputs *)

Example arbq_ctor_sample :
  arbq_ctor (ext:=sample) 1 2 sample_pcoord None = Ret sample_arbq.
Proof. reflexivity. Qed.

Example arbq_ctor_weights :
  arbq_ctor (ext:=sample) 1 2 sample_pcoord (Some sample_pcoord)
  = Ret {| dyn := arbq; q := 2; n := 2; pdim := 1;
           locs := Some <$> sample_pcoord; wgts := Some <$> sample_pcoord |}.
Proof. reflexivity. Qed.

(** Four coordinates are read from an array of two. *)
Example arbq_ctor_short_array :
  arbq_ctor (ext:=sample) 2 2 sample_pcoord None = Undefined.
Proof. reflexivity. Qed.

(** The quadrilateral rule of order 2 is already at address 1. *)
Example instance_again : fst (instance quadq 2 quad_and_hex) = Ret 1%positive.
Proof. vm_compute; reflexivity. Qed.

(** The side rule of the hexahedron rule is that quadrilateral rule; the
    side rule of the quadrilateral rule is a new line rule. *)
Example side_rule_of_hex : fst (side_rule 2%positive quad_and_hex) = Ret 1%positive.
Proof. vm_compute; reflexivity. Qed.

Example side_rule_of_quad : fst (side_rule 1%positive quad_and_hex) = Ret 3%positive.
Proof. vm_compute; reflexivity. Qed.

Example Topo2Intg_hex_then_unknown :
  fst (Topo2Intg (ext:=sample) 2 "HEX" quad_and_hex) = Ret 2%positive ∧
  fst (Topo2Intg (ext:=sample) 2 "PYRAMID" quad_and_hex)
  = Throw "Unsupported topology for integration rule".
Proof. split; vm_compute; reflexivity. Qed.

(** ** The theorems on concrete runs *)

Lemma arbq_ctor_spec_witness :
  (N.to_nat (UInt_mul (ext:=sample) 2 1) ≤ length sample_pcoord)%nat ∧
  ∃ r, arbq_ctor (ext:=sample) 1 2 sample_pcoord None = Ret r ∧
       order r = 2 ∧ npoints r = 2 ∧ parametric_dim r = 1 ∧
       locations r = Some <$> take (N.to_nat (UInt_mul (ext:=sample) 2 1)) sample_pcoord ∧
       (length sample_pcoord = N.to_nat (UInt_mul (ext:=sample) 2 1) →
          locations r = Some <$> sample_pcoord) ∧
       (2 * 1 < 2 ^ UInt_bits (Collaborators:=sample) →
          length (locations r) = N.to_nat (2 * 1)) ∧
       weights r = replicate (N.to_nat 2) None.
Proof.
  split; [vm_compute; lia|].
  apply (arbq_ctor_spec (ext:=sample) 1 2 sample_pcoord None); [vm_compute; lia|].
  intros ws Hws. discriminate Hws.
Defined.

Lemma unsupported_operations_witness :
  heap two_arbq !! 1%positive = Some sample_arbq ∧
  (dyn sample_arbq = arbq →
     side_rule 1%positive two_arbq = (Throw "No side rule for arbq", two_arbq) ∧
     ChangeOrder 1%positive 5 two_arbq = (Throw "Arbq doesnt swap order", two_arbq)) ∧
  (dyn sample_arbq = cached barq →
     side_rule 1%positive two_arbq = (Throw "No side rule for bar", two_arbq)).
Proof.
  split; [vm_compute; reflexivity|].
  apply (unsupported_operations (ext:=sample) two_arbq 1%positive sample_arbq 5).
  vm_compute; reflexivity.
Defined.

Lemma Topo2Intg_unsupported_witness :
  topo_class (Collaborators:=sample) "PYRAMID" = None ∧
  throws (fst (Topo2Intg (ext:=sample) 3 "PYRAMID" start)) ∧
  ¬ returns (fst (Topo2Intg (ext:=sample) 3 "PYRAMID" start)) ∧
  snd (Topo2Intg (ext:=sample) 3 "PYRAMID" start) = start.
Proof.
  split; [reflexivity|].
  apply (Topo2Intg_unsupported (ext:=sample) 3 "PYRAMID" start). reflexivity.
Defined.

Lemma ChangeOrder_cached_singleton_witness :
  heap quad_and_hex !! 1%positive = Some (cached_ctor quadq 2) ∧
  dyn (cached_ctor (ext:=sample) quadq 2) = cached quadq ∧
  ∃ p, ChangeOrder 1%positive 4 quad_and_hex
         = (Ret p, snd (ChangeOrder 1%positive 4 quad_and_hex)) ∧
       is_instance (snd (ChangeOrder 1%positive 4 quad_and_hex)) quadq 4 p ∧
       instance quadq 4 (snd (ChangeOrder 1%positive 4 quad_and_hex))
         = (Ret p, snd (ChangeOrder 1%positive 4 quad_and_hex)) ∧
       (∀ p0, classInstances quadq quad_and_hex !! 4 = Some p0 →
          p = p0 ∧ snd (ChangeOrder 1%positive 4 quad_and_hex) = quad_and_hex).
Proof.
  split; [vm_compute; reflexivity|]. split; [reflexivity|].
  apply (ChangeOrder_cached_singleton (ext:=sample) quad_and_hex_ops 1%positive
           (cached_ctor quadq 2) quadq 4); [vm_compute; reflexivity|reflexivity].
Defined.

Lemma side_rule_lower_dimension_witness :
  heap quad_and_hex !! 2%positive = Some (cached_ctor hexq 2) ∧
  (dyn (cached_ctor (ext:=sample) hexq 2) = cached quadq →
     side_rule_is_instance quad_and_hex 2%positive (cached_ctor hexq 2) barq) ∧
  (dyn (cached_ctor (ext:=sample) hexq 2) = cached hexq →
     side_rule_is_instance quad_and_hex 2%positive (cached_ctor hexq 2) quadq) ∧
  (dyn (cached_ctor (ext:=sample) hexq 2) = cached tetraq →
     side_rule_is_instance quad_and_hex 2%positive (cached_ctor hexq 2) triq).
Proof.
  split; [vm_compute; reflexivity|].
  apply (side_rule_lower_dimension (ext:=sample) quad_and_hex_ops 2%positive
           (cached_ctor hexq 2)).
  vm_compute; reflexivity.
Defined.

Lemma rule_members_fixed_witness :
  heap quad_and_hex !! 2%positive = Some (cached_ctor hexq 2) ∧
  length (locations (cached_ctor (ext:=sample) hexq 2)) = 24%nat ∧
  length (weights (cached_ctor (ext:=sample) hexq 2)) = 8%nat ∧
  ∃ r', heap (run [Op_ChangeOrder 2%positive 5; Op_side_rule 2%positive] quad_and_hex)
          !! 2%positive = Some r' ∧
        npoints r' = 8 ∧ order r' = 2 ∧ parametric_dim r' = 3.
Proof.
  split; [vm_compute; reflexivity|].
  destruct (rule_members_fixed (ext:=sample) quad_and_hex_ops 2%positive
              (cached_ctor hexq 2) ltac:(vm_compute; reflexivity))
    as (Hl & _ & Hw & Hlater).
  split; [exact Hl|]. split; [exact Hw|].
  destruct (Hlater [Op_ChangeOrder 2%positive 5; Op_side_rule 2%positive])
    as (r' & Hr' & Hn & Ho & Hd & _).
  exists r'. split; [exact Hr'|]. split; [exact Hn|]. split; [exact Ho|exact Hd].
Defined.

(** C1: the set built for ["QUAD"] has four entries, and [GetSideRule(4)]
    on it raises nothing. *)
Lemma GetSideRule_past_the_end :
  let sf := {| side_rules := [3; 3; 3; 3]%positive;
               topo := {| num_sides := 4; side_topo_name := λ _, "BAR";
                          topo_parametric_dim := 2 |};
               base := 1%positive |} in
  fst (sideIntgFactory_instance "QUAD" 1%positive two_arbq) = Ret 1%positive ∧
  factories (snd (sideIntgFactory_instance "QUAD" 1%positive two_arbq)) !! 1%positive
    = Some sf ∧
  (num_sides <$> GetTopo (Collaborators:=sample) "QUAD") = Some 4 ∧
  length (side_rules sf) = 4%nat ∧
  GetSideRule sf 4 = Undefined ∧
  ¬ throws (GetSideRule sf 4).
Proof.
  cbv zeta. split; [vm_compute; reflexivity|]. split; [vm_compute; reflexivity|].
  split; [reflexivity|]. split; [reflexivity|]. split; [reflexivity|].
  intros [msg Hmsg]. discriminate Hmsg.
Defined.

Lemma GetSideRule_range_witness :
  fst (sideIntgFactory_instance "QUAD" 1%positive two_arbq) = Ret 1%positive ∧
  ∃ sf t,
    factories (snd (sideIntgFactory_instance "QUAD" 1%positive two_arbq)) !! 1%positive
      = Some sf ∧
    GetTopo (Collaborators:=sample) "QUAD" = Some t ∧
    length (side_rules sf) = N.to_nat (num_sides t) ∧
    ∀ side_num,
      (side_num < num_sides t →
         ∃ r, GetSideRule sf side_num = Ret r ∧
              side_rules sf !! N.to_nat side_num = Some r) ∧
      (num_sides t ≤ side_num →
         GetSideRule sf side_num = Undefined ∧ ¬ throws (GetSideRule sf side_num)).
Proof.
  split; [vm_compute; reflexivity|].
  apply (GetSideRule_range (ext:=sample) two_arbq_ops "QUAD" 1%positive 1%positive).
  vm_compute; reflexivity.
Defined.

(** C2: two [arbq] rules of order 2 at different addresses get two
    different factories for ["QUAD"]. *)
Lemma sideIntgFactory_instance_distinct_bases :
  heap two_arbq !! 1%positive = Some sample_arbq ∧
  heap two_arbq !! 2%positive = Some sample_arbq ∧
  fst (sideIntgFactory_instance "QUAD" 1%positive two_arbq) = Ret 1%positive ∧
  fst (sideIntgFactory_instance "QUAD" 2%positive
         (snd (sideIntgFactory_instance "QUAD" 1%positive two_arbq))) = Ret 2%positive ∧
  fst (sideIntgFactory_instance "QUAD" 1%positive two_arbq)
  ≠ fst (sideIntgFactory_instance "QUAD" 2%positive
           (snd (sideIntgFactory_instance "QUAD" 1%positive two_arbq))).
Proof.
  assert (H1 : fst (sideIntgFactory_instance "QUAD" 1%positive two_arbq) = Ret 1%positive)
    by (vm_compute; reflexivity).
  assert (H2 : fst (sideIntgFactory_instance "QUAD" 2%positive
                      (snd (sideIntgFactory_instance "QUAD" 1%positive two_arbq)))
               = Ret 2%positive) by (vm_compute; reflexivity).
  split; [vm_compute; reflexivity|]. split; [vm_compute; reflexivity|].
  split; [exact H1|]. split; [exact H2|].
  rewrite H1, H2. discriminate.
Defined.

Lemma sideIntgFactory_instance_same_order_witness :
  heap two_arbq !! 1%positive = Some sample_arbq ∧
  heap two_arbq !! 2%positive = Some sample_arbq ∧
  order sample_arbq = order sample_arbq ∧
  fst (sideIntgFactory_instance "QUAD" 1%positive two_arbq) = Ret 1%positive ∧
  fst (sideIntgFactory_instance "QUAD" 2%positive
         (snd (sideIntgFactory_instance "QUAD" 1%positive two_arbq))) = Ret 2%positive ∧
  ∃ sf1 sf2,
    factories (snd (sideIntgFactory_instance "QUAD" 2%positive
                 (snd (sideIntgFactory_instance "QUAD" 1%positive two_arbq))))
      !! 1%positive = Some sf1 ∧
    factories (snd (sideIntgFactory_instance "QUAD" 2%positive
                 (snd (sideIntgFactory_instance "QUAD" 1%positive two_arbq))))
      !! 2%positive = Some sf2 ∧
    side_rules sf1 = side_rules sf2 ∧
    (1%positive = 2%positive ↔ 1%positive = 2%positive).
Proof.
  split; [vm_compute; reflexivity|]. split; [vm_compute; reflexivity|].
  split; [reflexivity|]. split; [vm_compute; reflexivity|]. split; [vm_compute; reflexivity|].
  apply (sideIntgFactory_instance_same_order (ext:=sample) two_arbq_ops
           "QUAD" 1%positive 2%positive sample_arbq sample_arbq 1%positive 2%positive);
    first [reflexivity | vm_compute; reflexivity].
Defined.

(** ** How the calls compose *)

Section QuadratureCompositions.
Context {ext : Collaborators}.

Lemma ChangeOrder_delegates w this r c q' :
  heap w !! this = Some r → dyn r = cached c →
  ChangeOrder this q' w = instance c q' w.
Proof. intros Hr Hd. unfold ChangeOrder. by rewrite Hr, Hd. Qed.

Lemma side_rule_to_side_class w this r c c' :
  heap w !! this = Some r → dyn r = cached c → side_class c = Some c' →
  side_rule this w = instance c' (order r) w.
Proof.
  intros Hr Hd Hs. unfold side_rule. rewrite Hr, Hd.
  destruct c; simpl in Hs; try done; by injection Hs as <-.
Qed.

Lemma is_instance_object w c ord p :
  is_instance w c ord p → ∃ r, heap w !! p = Some r ∧ dyn r = cached c ∧ order r = ord.
Proof. by intros [_ ?]. Qed.

(** The triangle rule hands out the line rule of its own order as side
    rule, like the quadrilateral rule does. *)
Theorem triq_side_rule (os : list op) (this : addr) (r : intgRule) :
  let w := run os start in
  heap w !! this = Some r → dyn r = cached triq →
  side_rule_is_instance w this r barq.
Proof.
  intros w Hr Hd. apply side_rule_delegates; [done|].
  by apply (side_rule_to_side_class _ _ _ triq).
Qed.

(** Side rules go down one dimension at a time and stop at the line: the
    side rule of the side rule of a hexahedron or tetrahedron rule is the
    line rule of the same order, and asking that one for a side rule
    throws. *)
Theorem side_rule_chain (os : list op) (this : addr) (r : intgRule) (c c1 : cached_class) :
  let w := run os start in
  heap w !! this = Some r → dyn r = cached c →
  side_class c = Some c1 → side_class c1 = Some barq →
  ∃ p1 p2,
    let w1 := snd (side_rule this w) in
    let w2 := snd (side_rule p1 w1) in
    side_rule this w = (Ret p1, w1) ∧ is_instance w1 c1 (order r) p1 ∧
    side_rule p1 w1 = (Ret p2, w2) ∧ is_instance w2 barq (order r) p2 ∧
    side_rule p2 w2 = (Throw "No side rule for bar", w2).
Proof.
  intros w Hr Hd Hs Hs1.
  rewrite (side_rule_to_side_class _ _ _ _ _ Hr Hd Hs).
  destruct (instance_ok c1 (order r) w (wf_run os)) as (p1 & Hi1 & Hwf1 & _ & Hp1).
  destruct (is_instance_object _ _ _ _ Hp1) as (r1 & Hr1 & Hd1 & Ho1).
  exists p1.
  pose proof (side_rule_to_side_class _ _ _ _ _ Hr1 Hd1 Hs1) as Hs2. rewrite Ho1 in Hs2.
  destruct (instance_ok barq (order r) _ Hwf1) as (p2 & Hi2 & Hwf2 & _ & Hp2).
  destruct (is_instance_object _ _ _ _ Hp2) as (r2 & Hr2 & Hd2 & _).
  exists p2. cbv zeta. rewrite Hs2. split_and!; try done.
  unfold side_rule. by rewrite Hr2, Hd2.
Qed.



(** Changing the order and taking the side rule commute: the side rule of
    the rule for order [q'] is the rule [ChangeOrder(q')] returns on the
    side rule of the receiver. *)
Theorem ChangeOrder_side_rule_commute (os : list op) (this : addr) (r : intgRule)
    (c c' : cached_class) (q' : N) :
  let w := run os start in
  heap w !! this = Some r → dyn r = cached c → side_class c = Some c' →
  ∃ p1 p2 p3,
    let w1 := snd (ChangeOrder this q' w) in
    let w2 := snd (side_rule p1 w1) in
    let w3 := snd (side_rule this w2) in
    ChangeOrder this q' w = (Ret p1, w1) ∧
    side_rule p1 w1 = (Ret p2, w2) ∧
    side_rule this w2 = (Ret p3, w3) ∧
    ChangeOrder p3 q' w3 = (Ret p2, w3) ∧
    is_instance w3 c' q' p2.
Proof.
  intros w Hr Hd Hs. rewrite (ChangeOrder_delegates _ _ _ _ _ Hr Hd).
  destruct (instance_ok c q' w (wf_run os)) as (p1 & Hi1 & Hwf1 & Hext1 & Hp1).
  destruct (is_instance_object _ _ _ _ Hp1) as (r1 & Hr1 & Hd1 & Ho1).
  pose proof (side_rule_to_side_class _ _ _ _ _ Hr1 Hd1 Hs) as Hs1. rewrite Ho1 in Hs1.
  destruct (instance_ok c' q' _ Hwf1) as (p2 & Hi2 & Hwf2 & Hext2 & Hp2).
  set (w1 := snd (instance c q' w)) in *.
  set (w2 := snd (instance c' q' w1)) in *.
  assert (Hr2 : heap w2 !! this = Some r).
  { eapply lookup_weaken, ext_heap, Hext2. by eapply lookup_weaken, ext_heap, Hext1. }
  pose proof (side_rule_to_side_class _ _ _ _ _ Hr2 Hd Hs) as Hs2.
  destruct (instance_ok c' (order r) _ Hwf2) as (p3 & Hi3 & Hwf3 & Hext3 & Hp3).
  set (w3 := snd (instance c' (order r) w2)) in *.
  destruct (is_instance_object _ _ _ _ Hp3) as (r3 & Hr3 & Hd3 & _).
  pose proof (is_instance_later _ _ _ _ _ Hwf3 Hext3 Hp2) as Hp2'.
  exists p1, p2, p3. cbv zeta. fold w1. rewrite Hs1. fold w2. rewrite Hs2. fold w3.
  split_and!; try done.
  rewrite (ChangeOrder_delegates _ _ _ _ _ Hr3 Hd3). apply instance_hit, Hp2'.
Qed.

(** One object is never the instance of two classes or of two orders: two
    calls of [instance] that return the same address were made on the same
    class with the same order. *)
Theorem instance_injective (os between : list op) (c1 c2 : cached_class) (o1 o2 : N) :
  let w := run os start in
  let w1 := snd (instance c1 o1 w) in
  let w2 := run between w1 in
  fst (instance c1 o1 w) = fst (instance c2 o2 w2) →
  c1 = c2 ∧ o1 = o2.
Proof.
  intros w w1 w2.
  destruct (instance_ok c1 o1 w (wf_run os)) as (p1 & Hi1 & Hwf1 & _ & Hp1).
  destruct (run_ok between w1 Hwf1) as [Hwf2 Hext2].
  pose proof (is_instance_later _ _ _ _ _ Hwf2 Hext2 Hp1) as Hp1'.
  destruct (instance_ok c2 o2 w2 Hwf2) as (p2 & Hi2 & Hwf3 & Hext3 & Hp2).
  rewrite Hi1, Hi2. simpl. intros [= ->].
  pose proof (is_instance_later _ _ _ _ _ Hwf3 Hext3 Hp1') as Hp1''.
  destruct (is_instance_object _ _ _ _ Hp1'') as (r1 & Hr1 & Hd1 & Ho1).
  destruct (is_instance_object _ _ _ _ Hp2) as (r2 & Hr2 & Hd2 & Ho2).
  assert (r1 = r2) as -> by congruence. split; congruence.
Qed.

(** Rules of the same order whose classes have the same side class share
    one side rule object: a quadrilateral and a triangle rule of order [q]
    return the same line rule, whatever was called in between. *)
Theorem side_rule_shared (os between : list op) (a b : addr) (ra rb : intgRule)
    (ca cb c' : cached_class) :
  let w := run os start in
  let w1 := snd (side_rule a w) in
  let w2 := run between w1 in
  heap w !! a = Some ra → dyn ra = cached ca → side_class ca = Some c' →
  heap w !! b = Some rb → dyn rb = cached cb → side_class cb = Some c' →
  order ra = order rb →
  ∃ p, side_rule a w = (Ret p, w1) ∧ side_rule b w2 = (Ret p, w2).
Proof.
  intros w w1 w2 Hra Hda Hsa Hrb Hdb Hsb Hord. unfold w2, w1.
  rewrite (side_rule_to_side_class _ _ _ _ _ Hra Hda Hsa).
  destruct (instance_ok c' (order ra) w (wf_run os)) as (p & Hi & Hwf1 & Hext1 & Hp).
  destruct (run_ok between _ Hwf1) as [Hwf2 Hext2].
  assert (Hrb2 : heap (run between (snd (instance c' (order ra) w))) !! b = Some rb).
  { eapply lookup_weaken, ext_heap, Hext2. by eapply lookup_weaken, ext_heap, Hext1. }
  exists p. split; [done|].
  rewrite (side_rule_to_side_class _ _ _ _ _ Hrb2 Hdb Hsb), <- Hord.
  apply instance_hit. by apply (is_instance_later _ _ _ _ _ Hwf2 Hext2 Hp).
Qed.

(** ** More on [arbq] *)

(** The constructor reads the first [nq * pdim] coordinates and the first
    [nq] weights and nothing behind them: longer caller arrays give the
    same rule. *)
Theorem arbq_ctor_reads_prefix (_pdim nq : N) (pcoord : list double)
    (_wgts : option (list double)) (more more_w : list double) :
  (N.to_nat (UInt_mul nq _pdim) ≤ length pcoord)%nat →
  (∀ ws, _wgts = Some ws → (N.to_nat nq ≤ length ws)%nat) →
  arbq_ctor _pdim nq (pcoord ++ more) ((λ ws, ws ++ more_w) <$> _wgts)
  = arbq_ctor _pdim nq pcoord _wgts.
Proof.
  intros Hpc Hws. unfold arbq_ctor. simpl.
  rewrite !decide_False by (rewrite ?length_app; lia).
  unfold std_copy. rewrite take_app_le by done.
  destruct _wgts as [ws|]; simpl; [|done].
  specialize (Hws ws eq_refl).
  rewrite !decide_False by (rewrite ?length_app; lia).
  by rewrite take_app_le.
Qed.

(** When [nq * pdim] is zero as a [UInt] (no points, dimension zero, or a
    product that wraps to zero), the constructor reads no coordinate: it
    returns for every [pcoord], the empty one too, with an empty coordinate
    array. *)
Theorem arbq_ctor_no_coordinates (_pdim nq : N) (pcoord : list double)
    (_wgts : option (list double)) :
  UInt_mul nq _pdim = 0 →
  (∀ ws, _wgts = Some ws → (N.to_nat nq ≤ length ws)%nat) →
  ∃ r, arbq_ctor _pdim nq pcoord _wgts = Ret r ∧ locations r = [] ∧
       order r = nq ∧ npoints r = nq ∧ length (weights r) = N.to_nat nq.
Proof.
  intros Hz Hws. unfold arbq_ctor. simpl. rewrite Hz.
  change (N.to_nat 0) with 0%nat. case_decide; [lia|].
  destruct _wgts as [ws|].
  - specialize (Hws ws eq_refl). rewrite decide_False by lia.
    eexists. split; [done|]. unfold locations, order, npoints, weights. simpl.
    split_and!; try done.
    rewrite length_std_copy; rewrite ?length_replicate; lia.
  - eexists. split; [done|]. unfold locations, order, npoints, weights. simpl.
    split_and!; try done. by rewrite length_replicate.
Qed.

(** ** More on the side-rule factory *)

(** Once [sideIntgFactory::instance] has returned a factory for a name and
    a base rule, every later call with that name and base rule returns the
    same factory and leaves the store alone, and the factory object is
    still the one that was built. *)
Theorem sideIntgFactory_instance_again (os between : list op) (toponame : string)
    (base_rule f : addr) :
  let w := run os start in
  let w1 := snd (sideIntgFactory_instance toponame base_rule w) in
  let w2 := run between w1 in
  fst (sideIntgFactory_instance toponame base_rule w) = Ret f →
  sideIntgFactory_instance toponame base_rule w2 = (Ret f, w2) ∧
  is_Some (factories w1 !! f) ∧
  factories w2 !! f = factories w1 !! f.
Proof.
  intros w w1 w2 Hret.
  destruct (sideIntgFactory_instance_ok _ _ w _ (wf_run os) Hret) as (Hwf1 & _ & Hm).
  destruct (run_ok between w1 Hwf1) as [Hwf2 Hext2].
  destruct (wf_factory _ Hwf1 _ _ _ Hm) as (sf & _ & _ & Hsf & _).
  split_and!.
  - apply sideIntgFactory_instance_hit. by eapply lookup_weaken, ext_InstanceMap.
  - by exists sf.
  - fold w1 in Hsf. rewrite Hsf. by eapply lookup_weaken, ext_factories.
Qed.

(** Every entry [GetSideRule] returns from a factory is the rule the
    dispatcher gives for the shape of that side and the order of the base
    rule: a live cached instance of the class of the side, of that
    order. *)
Theorem GetSideRule_is_side_instance (os : list op) (toponame : string)
    (base_rule f : addr) (rb : intgRule) :
  let w := run os start in
  let w' := snd (sideIntgFactory_instance toponame base_rule w) in
  heap w !! base_rule = Some rb →
  fst (sideIntgFactory_instance toponame base_rule w) = Ret f →
  ∃ sf t, factories w' !! f = Some sf ∧ GetTopo toponame = Some t ∧
    ∀ side_num, side_num < num_sides t →
      ∃ p c, GetSideRule sf side_num = Ret p ∧
        topo_class (side_topo_name t (N.to_nat side_num)) = Some c ∧
        is_instance w' c (order rb) p ∧
        Topo2Intg (order rb) (side_topo_name t (N.to_nat side_num)) w' = (Ret p, w').
Proof.
  intros w w' Hrb Hret.
  destruct (sideIntgFactory_instance_ok _ _ w _ (wf_run os) Hret) as (Hwf' & Hext & Hm).
  destruct (wf_factory _ Hwf' _ _ _ Hm)
    as (sf & t & rb' & Hsf & Ht & Hrb' & _ & _ & Hlen & Hrs).
  pose proof (lookup_weaken _ _ _ _ Hrb (ext_heap _ _ Hext)) as Hrb2.
  assert (rb' = rb) as -> by congruence.
  exists sf, t. split_and!; try done.
  intros side_num Hlt.
  destruct (lookup_lt_is_Some_2 (side_rules sf) (N.to_nat side_num)) as [p Hp]; [lia|].
  destruct (Hrs _ _ Hp) as (c & Hc & Hl).
  exists p, c. unfold GetSideRule. rewrite Hp. split_and!; try done.
  - split; [done|]. destruct (wf_cached _ Hwf' _ _ _ Hl) as (r & ? & ? & ?). by exists r.
  - unfold Topo2Intg. rewrite Hc. by apply instance_hit.
Qed.

End QuadratureCompositions.

(** ** The compositions on concrete runs *)

Lemma triq_side_rule_witness :
  heap quad_and_tri !! 2%positive = Some (cached_ctor triq 2) ∧
  dyn (cached_ctor (ext:=sample) triq 2) = cached triq ∧
  side_rule_is_instance quad_and_tri 2%positive (cached_ctor triq 2) barq.
Proof.
  split; [vm_compute; reflexivity|]. split; [reflexivity|].
  apply (triq_side_rule (ext:=sample) quad_and_tri_ops 2%positive (cached_ctor triq 2));
    [vm_compute; reflexivity|reflexivity].
Defined.

Lemma side_rule_chain_witness :
  heap quad_and_hex !! 2%positive = Some (cached_ctor hexq 2) ∧
  dyn (cached_ctor (ext:=sample) hexq 2) = cached hexq ∧
  side_class hexq = Some quadq ∧ side_class quadq = Some barq ∧
  ∃ p1 p2,
    fst (side_rule 2%positive quad_and_hex) = Ret p1 ∧
    fst (side_rule p1 (snd (side_rule 2%positive quad_and_hex))) = Ret p2 ∧
    throws (fst (side_rule p2
                   (snd (side_rule p1 (snd (side_rule 2%positive quad_and_hex)))))).
Proof.
  split; [vm_compute; reflexivity|]. split; [reflexivity|].
  split; [reflexivity|]. split; [reflexivity|].
  destruct (side_rule_chain (ext:=sample) quad_and_hex_ops 2%positive (cached_ctor hexq 2)
              hexq quadq ltac:(vm_compute; reflexivity) eq_refl eq_refl eq_refl)
    as (p1 & p2 & H1 & _ & H2 & _ & H3).
  exists p1, p2. split; [by rewrite H1|]. split; [by rewrite H2|].
  rewrite H3. by eexists.
Defined.



Lemma ChangeOrder_side_rule_commute_witness :
  heap quad_and_hex !! 2%positive = Some (cached_ctor hexq 2) ∧
  dyn (cached_ctor (ext:=sample) hexq 2) = cached hexq ∧
  side_class hexq = Some quadq ∧
  ∃ p1 p2 p3,
    fst (ChangeOrder 2%positive 5 quad_and_hex) = Ret p1 ∧
    fst (side_rule p1 (snd (ChangeOrder 2%positive 5 quad_and_hex))) = Ret p2 ∧
    fst (side_rule 2%positive
           (snd (side_rule p1 (snd (ChangeOrder 2%positive 5 quad_and_hex))))) = Ret p3 ∧
    fst (ChangeOrder p3 5
           (snd (side_rule 2%positive
                   (snd (side_rule p1 (snd (ChangeOrder 2%positive 5 quad_and_hex)))))))
    = Ret p2.
Proof.
  split; [vm_compute; reflexivity|]. split; [reflexivity|]. split; [reflexivity|].
  destruct (ChangeOrder_side_rule_commute (ext:=sample) quad_and_hex_ops 2%positive
              (cached_ctor hexq 2) hexq quadq 5 ltac:(vm_compute; reflexivity) eq_refl eq_refl)
    as (p1 & p2 & p3 & H1 & H2 & H3 & H4 & _).
  exists p1, p2, p3. split; [by rewrite H1|]. split; [by rewrite H2|].
  split; [by rewrite H3|]. by rewrite H4.
Defined.

Lemma instance_injective_witness :
  fst (instance quadq 2 (run (ext:=sample) [] start))
  = fst (instance quadq 2
           (run quad_and_hex_ops (snd (instance quadq 2 (run (ext:=sample) [] start))))) ∧
  quadq = quadq ∧ 2 = 2.
Proof.
  split; [vm_compute; reflexivity|].
  apply (instance_injective (ext:=sample) [] quad_and_hex_ops quadq quadq 2 2).
  vm_compute; reflexivity.
Defined.

Lemma side_rule_shared_witness :
  heap quad_and_tri !! 1%positive = Some (cached_ctor quadq 2) ∧
  heap quad_and_tri !! 2%positive = Some (cached_ctor triq 2) ∧
  order (cached_ctor (ext:=sample) quadq 2) = order (cached_ctor (ext:=sample) triq 2) ∧
  ∃ p, side_rule 1%positive quad_and_tri = (Ret p, snd (side_rule 1%positive quad_and_tri)) ∧
       side_rule 2%positive
         (run [Op_instance barq 7] (snd (side_rule 1%positive quad_and_tri)))
       = (Ret p, run [Op_instance barq 7] (snd (side_rule 1%positive quad_and_tri))).
Proof.
  split; [vm_compute; reflexivity|]. split; [vm_compute; reflexivity|].
  split; [reflexivity|].
  apply (side_rule_shared (ext:=sample) quad_and_tri_ops [Op_instance barq 7]
           1%positive 2%positive (cached_ctor quadq 2) (cached_ctor triq 2) quadq triq barq);
    first [reflexivity | vm_compute; reflexivity].
Defined.

Lemma arbq_ctor_reads_prefix_witness :
  (N.to_nat (UInt_mul (ext:=sample) 2 1) ≤ length sample_pcoord)%nat ∧
  arbq_ctor (ext:=sample) 1 2 (sample_pcoord ++ sample_pcoord)
    ((λ ws, ws ++ sample_pcoord) <$> Some sample_pcoord)
  = arbq_ctor (ext:=sample) 1 2 sample_pcoord (Some sample_pcoord).
Proof.
  split; [vm_compute; lia|].
  apply (arbq_ctor_reads_prefix (ext:=sample) 1 2 sample_pcoord (Some sample_pcoord)
           sample_pcoord sample_pcoord); [vm_compute; lia|].
  intros ws [= <-]. vm_compute. lia.
Defined.

Lemma arbq_ctor_no_coordinates_witness :
  UInt_mul (ext:=sample) 2 0 = 0 ∧
  ∃ r, arbq_ctor (ext:=sample) 0 2 [] None = Ret r ∧ locations r = [] ∧
       order r = 2 ∧ npoints r = 2 ∧ length (weights r) = N.to_nat 2.
Proof.
  split; [reflexivity|].
  apply (arbq_ctor_no_coordinates (ext:=sample) 0 2 [] None); [reflexivity|].
  intros ws Hws. discriminate Hws.
Defined.

Lemma sideIntgFactory_instance_again_witness :
  fst (sideIntgFactory_instance "QUAD" 1%positive two_arbq) = Ret 1%positive ∧
  fst (sideIntgFactory_instance "QUAD" 1%positive
         (run [Op_sideIntgFactory_instance "QUAD" 2%positive]
            (snd (sideIntgFactory_instance "QUAD" 1%positive two_arbq))))
  = Ret 1%positive.
Proof.
  split; [vm_compute; reflexivity|].
  destruct (sideIntgFactory_instance_again (ext:=sample) two_arbq_ops
              [Op_sideIntgFactory_instance "QUAD" 2%positive] "QUAD" 1%positive 1%positive
              ltac:(vm_compute; reflexivity)) as (H & _ & _).
  by rewrite H.
Defined.

Lemma GetSideRule_is_side_instance_witness :
  heap two_arbq !! 1%positive = Some sample_arbq ∧
  fst (sideIntgFactory_instance "QUAD" 1%positive two_arbq) = Ret 1%positive ∧
  ∃ sf t,
    factories (snd (sideIntgFactory_instance "QUAD" 1%positive two_arbq)) !! 1%positive
      = Some sf ∧
    GetTopo (Collaborators:=sample) "QUAD" = Some t ∧
    ∀ side_num, side_num < num_sides t → returns (GetSideRule sf side_num).
Proof.
  split; [vm_compute; reflexivity|]. split; [vm_compute; reflexivity|].
  destruct (GetSideRule_is_side_instance (ext:=sample) two_arbq_ops "QUAD"
              1%positive 1%positive sample_arbq
              ltac:(vm_compute; reflexivity) ltac:(vm_compute; reflexivity))
    as (sf & t & Hsf & Ht & Hall).
  exists sf, t. split; [exact Hsf|]. split; [exact Ht|].
  intros side_num Hlt. destruct (Hall side_num Hlt) as (p & c & Hp & _).
  by exists p.
Defined.
